(** * ChatArea: realtime message reconciliation and composer state machine

    A shallow embedding of the [ChatArea] React component
    (components/ChatArea.tsx, the revision with typing indicators and
    file attachments) together with the fragment of the JavaScript
    platform it relies on: strings as sequences of UTF-16 code units,
    truthiness, [Array.prototype.sort] and [join], [String.prototype.trim],
    [Date], timers and promises.

    React state is a record; every callback of the component (event
    handler, effect, promise continuation, timer callback) is a function
    from state to state.  Asynchronous calls are split at their [await]:
    the part before it registers an in-flight operation, the part after
    it is run when the environment delivers the outcome. *)

From Stdlib Require Import ZArith NArith List Bool String Ascii Lia.
From Stdlib Require Import DecimalString.
Import ListNotations.

(* ================================================================== *)
(** * JavaScript platform *)
(* ================================================================== *)

Module JS.

(** A JavaScript string is a sequence of UTF-16 code units. *)
Definition jsstring := list N.

(** String literals of the source, written in ASCII. *)
Definition lit (s : string) : jsstring :=
  map N_of_ascii (list_ascii_of_string s).

(** [a === b] on strings. *)
Fixpoint str_eqb (a b : jsstring) : bool :=
  match a, b with
  | [], [] => true
  | x :: a', y :: b' => N.eqb x y && str_eqb a' b'
  | _, _ => false
  end.

(** Lexicographic comparison by code unit, the order of [<] on strings
    (a proper prefix is smaller). *)
Fixpoint str_compare (a b : jsstring) : comparison :=
  match a, b with
  | [], [] => Eq
  | [], _ :: _ => Lt
  | _ :: _, [] => Gt
  | x :: a', y :: b' =>
      match N.compare x y with
      | Eq => str_compare a' b'
      | c => c
      end
  end.

Definition str_ltb (a b : jsstring) : bool :=
  match str_compare a b with Lt => true | _ => false end.

(** A value that is a string or [undefined]. *)
Definition optstr := option jsstring.

(** Truthiness of a string-or-undefined: [undefined] and [''] are falsy. *)
Definition truthy (v : optstr) : bool :=
  match v with
  | Some (_ :: _) => true
  | _ => false
  end.

Definition truthy_str (s : jsstring) : bool :=
  match s with [] => false | _ :: _ => true end.

(** [v || d] where [d] is a string. *)
Definition or_str (v : optstr) (d : jsstring) : jsstring :=
  match v with
  | Some (c :: s) => c :: s
  | _ => d
  end.

(** Template-literal / [join] conversion of an element: [undefined]
    contributes the empty string to [join]. *)
Definition join_elt (v : optstr) : jsstring :=
  match v with Some s => s | None => [] end.

(** [arr.join(sep)]. *)
Fixpoint join (sep : jsstring) (arr : list optstr) : jsstring :=
  match arr with
  | [] => []
  | [v] => join_elt v
  | v :: rest => join_elt v ++ sep ++ join sep rest
  end.

(** [SortCompare(x, y)] of [Array.prototype.sort] without a comparator:
    [undefined] sorts last, strings compare by code unit. *)
Definition SortCompare (x y : optstr) : Z :=
  match x, y with
  | None, None => 0
  | None, Some _ => 1
  | Some _, None => -1
  | Some a, Some b =>
      if str_ltb a b then -1
      else if str_ltb b a then 1
      else 0
  end%Z.

Fixpoint sort_insert (x : optstr) (sorted : list optstr) : list optstr :=
  match sorted with
  | [] => [x]
  | y :: rest =>
      if (0 <? SortCompare x y)%Z then y :: sort_insert x rest
      else x :: y :: rest
  end.

(** [arr.sort()]: the stable ordering of the elements by [SortCompare]. *)
Fixpoint sort (arr : list optstr) : list optstr :=
  match arr with
  | [] => []
  | x :: rest => sort_insert x (sort rest)
  end.

(** White space and line terminators removed by [trim]. *)
Definition is_white_space (c : N) : bool :=
  ((9 <=? c) && (c <=? 13) || (c =? 32) || (c =? 160) || (c =? 5760)
   || (8192 <=? c) && (c <=? 8202) || (c =? 8232) || (c =? 8233)
   || (c =? 8239) || (c =? 8287) || (c =? 12288) || (c =? 65279))%N.

Fixpoint trim_start (s : jsstring) : jsstring :=
  match s with
  | [] => []
  | c :: s' => if is_white_space c then trim_start s' else s
  end.

(** [s.trim()]. *)
Definition trim (s : jsstring) : jsstring :=
  rev (trim_start (rev (trim_start s))).

(** [s.split(sep)[0]] for a one-unit separator: the part before the
    first occurrence of [sep]. *)
Fixpoint split_head (sep : N) (s : jsstring) : jsstring :=
  match s with
  | [] => []
  | c :: s' => if N.eqb c sep then [] else c :: split_head sep s'
  end.

(** [n.toString()] for an integral number. *)
Definition toString (n : Z) : jsstring :=
  lit (NilZero.string_of_int (Z.to_int n)).

(** [arr.some(p)], [arr.includes(x)] and [arr.filter(p)] on lists. *)
Definition some {A} (p : A -> bool) (arr : list A) : bool := existsb p arr.

Definition includes (arr : list jsstring) (x : jsstring) : bool :=
  existsb (str_eqb x) arr.

(** [arr.filter((_, i) => p i)], the index-aware filter. *)
Fixpoint filter_index {A} (p : nat -> bool) (from : nat) (arr : list A)
  : list A :=
  match arr with
  | [] => []
  | x :: rest =>
      if p from then x :: filter_index p (S from) rest
      else filter_index p (S from) rest
  end.

(** ** Dates

    A [Date] is its time value: milliseconds since the epoch, UTC.  The
    component only builds dates from finite numbers, so the invalid date
    is left out.  The viewer's zone is given by the two offset functions
    of the host, one taking a UTC time value and one a local one. *)

Record TimeZone := {
  tza_utc : Z -> Z;     (* offset at a UTC time value, in ms *)
  tza_local : Z -> Z    (* offset at a local time value, in ms *)
}.

Definition msPerDay : Z := 86400000.

Definition Day (t : Z) : Z := (t / msPerDay)%Z.
Definition TimeWithinDay (t : Z) : Z := (t mod msPerDay)%Z.
Definition WeekDay (t : Z) : Z := ((Day t + 4) mod 7)%Z.

Definition LocalTime (tz : TimeZone) (t : Z) : Z := (t + tza_utc tz t)%Z.
Definition UTC (tz : TimeZone) (t : Z) : Z := (t - tza_local tz t)%Z.

(** Day number to proleptic Gregorian (year, month 0..11, day 1..31). *)
Definition civil_from_days (z : Z) : Z * Z * Z :=
  (let z := z + 719468 in
   let era := z / 146097 in
   let doe := z - era * 146097 in
   let yoe := (doe - doe / 1460 + doe / 36524 - doe / 146096) / 365 in
   let y := yoe + era * 400 in
   let doy := doe - (365 * yoe + yoe / 4 - yoe / 100) in
   let mp := (5 * doy + 2) / 153 in
   let d := doy - (153 * mp + 2) / 5 + 1 in
   let m := if mp <? 10 then mp + 3 else mp - 9 in
   (if m <=? 2 then y + 1 else y, m - 1, d))%Z.

(** Gregorian (year, month 0..11) to the day number of its first day. *)
Definition days_from_civil (year month : Z) : Z :=
  (let m := month + 1 in
   let y := if m <=? 2 then year - 1 else year in
   let era := y / 400 in
   let yoe := y - era * 400 in
   let doy := (153 * (if 2 <? m then m - 3 else m + 9) + 2) / 5 in
   let doe := yoe * 365 + yoe / 4 - yoe / 100 + doy in
   era * 146097 + doe - 719468)%Z.

Definition YearFromTime (t : Z) : Z := fst (fst (civil_from_days (Day t))).
Definition MonthFromTime (t : Z) : Z := snd (fst (civil_from_days (Day t))).
Definition DateFromTime (t : Z) : Z := snd (civil_from_days (Day t)).

(** [MakeDay(year, month, date)] for a month in 0..11; [date] may lie
    outside the month. *)
Definition MakeDay (year month date : Z) : Z :=
  (days_from_civil year month + date - 1)%Z.

Definition MakeDate (day time : Z) : Z := (day * msPerDay + time)%Z.

(** [d.getDate()]. *)
Definition getDate (tz : TimeZone) (tv : Z) : Z :=
  DateFromTime (LocalTime tz tv).

(** [d.setDate(dt)], returning the new time value. *)
Definition setDate (tz : TimeZone) (tv : Z) (dt : Z) : Z :=
  let t := LocalTime tz tv in
  let newDate :=
    MakeDate (MakeDay (YearFromTime t) (MonthFromTime t) dt)
             (TimeWithinDay t) in
  UTC tz newDate.

Definition weekday_names : list string :=
  ["Sun"; "Mon"; "Tue"; "Wed"; "Thu"; "Fri"; "Sat"]%string.

Definition month_names : list string :=
  ["Jan"; "Feb"; "Mar"; "Apr"; "May"; "Jun";
   "Jul"; "Aug"; "Sep"; "Oct"; "Nov"; "Dec"]%string.

Definition month_long_names : list string :=
  ["January"; "February"; "March"; "April"; "May"; "June"; "July";
   "August"; "September"; "October"; "November"; "December"]%string.

Definition name_at (names : list string) (i : Z) : jsstring :=
  lit (nth (Z.to_nat i) names ""%string).

(** Decimal digits of a non-negative number, padded on the left with
    zeros to [width]. *)
Definition pad_zero (width : nat) (n : Z) : jsstring :=
  let digits := toString n in
  repeat 48%N (width - List.length digits) ++ digits.

(** [d.toDateString()]: weekday, month, day and year of the local date,
    as in [Mon Nov 02 2026]. *)
Definition toDateString (tz : TimeZone) (tv : Z) : jsstring :=
  let t := LocalTime tz tv in
  let yv := YearFromTime t in
  name_at weekday_names (WeekDay t) ++ lit " "
    ++ name_at month_names (MonthFromTime t) ++ lit " "
    ++ pad_zero 2 (DateFromTime t) ++ lit " "
    ++ (if (0 <=? yv)%Z then [] else lit "-") ++ pad_zero 4 (Z.abs yv).

(** [d.toLocaleDateString('en-US', { month: 'long', day: 'numeric' })]:
    the month name and the day of the month of the local date, as in
    [November 2]; the year is not part of it. *)
Definition toLocaleDateString_month_day (tz : TimeZone) (tv : Z) : jsstring :=
  let t := LocalTime tz tv in
  name_at month_long_names (MonthFromTime t) ++ lit " "
    ++ toString (DateFromTime t).

End JS.

Import JS.

(* ================================================================== *)
(** * Data model of the component *)
(* ================================================================== *)

(** [interface FileAttachment]. *)
Module FileAttachment.
Record t := { name : jsstring; url : jsstring; type : jsstring; size : Z }.
End FileAttachment.

(** A [File] of a [FileList], as far as the component reads it. *)
Module File.
Record t := { name : jsstring; type : jsstring; size : Z }.
End File.

(** The [user] field of a [Message]. *)
Module Author.
Record t := { name : jsstring; avatar : jsstring }.
End Author.

(** [interface Message].  [isOwn] and [attachments] are optional. *)
Module Message.
Record t := {
    id : jsstring;
    content : jsstring;
    user : Author.t;
    timestamp : Z;
    isOwn : option bool;
    attachments : option (list FileAttachment.t)
  }.
End Message.

(** The session user delivered by [blink.auth.onAuthStateChanged]. *)
Module User.
Record t := {
    id : jsstring;
    displayName : optstr;
    email : optstr;
    avatar : optstr
  }.
End User.

(** The [metadata] attached to a subscription or a publication. *)
Module Metadata.
Record t := { displayName : optstr; avatar : optstr }.
End Metadata.

(** The [data] payload of a realtime message, as the component reads it. *)
Module Data.
Record t := {
    content : jsstring;
    attachments : option (list FileAttachment.t);
    isTyping : bool
  }.
End Data.

(** A message delivered by the transport, live or from the backlog. *)
Module RealtimeMessage.
Record t := {
    id : jsstring;
    type : jsstring;
    data : Data.t;
    metadata : option Metadata.t;
    userId : jsstring;
    timestamp : Z
  }.
End RealtimeMessage.

(** The values captured by one run of [setupRealtime]: the [user] of the
    render and the [channel] it opened (a channel is named by its room). *)
Record Session := { s_user : User.t; s_channel : jsstring }.

(** Callbacks handed to [setTimeout]. *)
Inductive TimerCallback :=
| TypingStop (u : option User.t)      (* handleMessageChange, 1000 ms *)
| TypingExpire (userName : jsstring). (* onMessage, 3000 ms *)

Record Timer := { tid : nat; due : Z; callback : TimerCallback }.

(** Promises the component awaits, with what their continuation captured. *)
Inductive Pending :=
| AwaitSubscribe (s : Session)
| AwaitGetMessages (s : Session)
| AwaitPublishChat (u : User.t) (message : jsstring)
                   (attachments : list FileAttachment.t)
| AwaitUpload (file : File.t) (rest : list File.t)
              (newAttachments : list FileAttachment.t).

(** How the environment settles a promise. *)
Inductive Outcome :=
| Rejected
| Resolved
| ResolvedMessages (recentMessages : list RealtimeMessage.t)
| ResolvedUpload (publicUrl : jsstring).

(** Payload of [channel.publish]. *)
Inductive PublishData :=
| ChatData (content : jsstring) (attachments : list FileAttachment.t)
           (timestamp : Z)
| TypingData (isTyping : bool) (timestamp : Z).

(** Calls made on the realtime transport and the blob storage. *)
Inductive TransportCall :=
| Subscribe (room : jsstring) (userId : jsstring) (metadata : Metadata.t)
| OnMessage (room : jsstring)
| GetMessages (room : jsstring) (limit : Z)
| Publish (room : jsstring) (type : jsstring) (data : PublishData)
          (userId : jsstring) (metadata : Metadata.t)
| Unsubscribe (room : jsstring)
| Upload (file : File.t) (path : jsstring).

(** React state of [ChatArea]. *)
Record State := {
  message : jsstring;
  messages : list Message.t;
  user : option User.t;
  loading : bool;
  typingUsers : list jsstring;
  attachments : list FileAttachment.t;
  uploading : bool
}.

(** The component instance in its host: props, state, refs, the [channel]
    variable of the last run of the realtime effect, and the host's clock,
    timers, unsettled promises, registered [onMessage] callbacks, and the
    logs of transport calls and of [console.error]. *)
Record World := {
  channelId : optstr;
  dmId : optstr;
  state : State;
  channelRef : option jsstring;
  typingTimeoutRef : option nat;
  effectChannel : option jsstring;
  clock : Z;
  timers : list Timer;
  nextTimer : nat;
  pending : list Pending;
  listeners : list Session;
  transport : list TransportCall;
  console : list jsstring
}.

(** ** Field updates *)

Definition with_state (f : State -> State) (w : World) : World :=
  {| channelId := channelId w; dmId := dmId w; state := f (state w);
     channelRef := channelRef w; typingTimeoutRef := typingTimeoutRef w;
     effectChannel := effectChannel w; clock := clock w;
     timers := timers w; nextTimer := nextTimer w; pending := pending w;
     listeners := listeners w; transport := transport w;
     console := console w |}.

Definition set_props (c d : optstr) (w : World) : World :=
  {| channelId := c; dmId := d; state := state w;
     channelRef := channelRef w; typingTimeoutRef := typingTimeoutRef w;
     effectChannel := effectChannel w; clock := clock w;
     timers := timers w; nextTimer := nextTimer w; pending := pending w;
     listeners := listeners w; transport := transport w;
     console := console w |}.

Definition set_channelRef (r : option jsstring) (w : World) : World :=
  {| channelId := channelId w; dmId := dmId w; state := state w;
     channelRef := r; typingTimeoutRef := typingTimeoutRef w;
     effectChannel := effectChannel w; clock := clock w;
     timers := timers w; nextTimer := nextTimer w; pending := pending w;
     listeners := listeners w; transport := transport w;
     console := console w |}.

Definition set_typingTimeoutRef (r : option nat) (w : World) : World :=
  {| channelId := channelId w; dmId := dmId w; state := state w;
     channelRef := channelRef w; typingTimeoutRef := r;
     effectChannel := effectChannel w; clock := clock w;
     timers := timers w; nextTimer := nextTimer w; pending := pending w;
     listeners := listeners w; transport := transport w;
     console := console w |}.

Definition set_effectChannel (c : option jsstring) (w : World) : World :=
  {| channelId := channelId w; dmId := dmId w; state := state w;
     channelRef := channelRef w; typingTimeoutRef := typingTimeoutRef w;
     effectChannel := c; clock := clock w;
     timers := timers w; nextTimer := nextTimer w; pending := pending w;
     listeners := listeners w; transport := transport w;
     console := console w |}.

Definition set_clock (t : Z) (w : World) : World :=
  {| channelId := channelId w; dmId := dmId w; state := state w;
     channelRef := channelRef w; typingTimeoutRef := typingTimeoutRef w;
     effectChannel := effectChannel w; clock := t;
     timers := timers w; nextTimer := nextTimer w; pending := pending w;
     listeners := listeners w; transport := transport w;
     console := console w |}.

Definition set_timers (ts : list Timer) (next : nat) (w : World) : World :=
  {| channelId := channelId w; dmId := dmId w; state := state w;
     channelRef := channelRef w; typingTimeoutRef := typingTimeoutRef w;
     effectChannel := effectChannel w; clock := clock w;
     timers := ts; nextTimer := next; pending := pending w;
     listeners := listeners w; transport := transport w;
     console := console w |}.

Definition set_pending (ps : list Pending) (w : World) : World :=
  {| channelId := channelId w; dmId := dmId w; state := state w;
     channelRef := channelRef w; typingTimeoutRef := typingTimeoutRef w;
     effectChannel := effectChannel w; clock := clock w;
     timers := timers w; nextTimer := nextTimer w; pending := ps;
     listeners := listeners w; transport := transport w;
     console := console w |}.

Definition set_listeners (ls : list Session) (w : World) : World :=
  {| channelId := channelId w; dmId := dmId w; state := state w;
     channelRef := channelRef w; typingTimeoutRef := typingTimeoutRef w;
     effectChannel := effectChannel w; clock := clock w;
     timers := timers w; nextTimer := nextTimer w; pending := pending w;
     listeners := ls; transport := transport w;
     console := console w |}.

(** A call on the transport or the storage, appended to the log. *)
Definition call (c : TransportCall) (w : World) : World :=
  {| channelId := channelId w; dmId := dmId w; state := state w;
     channelRef := channelRef w; typingTimeoutRef := typingTimeoutRef w;
     effectChannel := effectChannel w; clock := clock w;
     timers := timers w; nextTimer := nextTimer w; pending := pending w;
     listeners := listeners w; transport := transport w ++ [c];
     console := console w |}.

(** [console.error(label, error)]; the label is empty where
    [console.error] itself is the rejection handler. *)
Definition console_error (label : jsstring) (w : World) : World :=
  {| channelId := channelId w; dmId := dmId w; state := state w;
     channelRef := channelRef w; typingTimeoutRef := typingTimeoutRef w;
     effectChannel := effectChannel w; clock := clock w;
     timers := timers w; nextTimer := nextTimer w; pending := pending w;
     listeners := listeners w; transport := transport w;
     console := console w ++ [label] |}.

(** An [await]: the promise joins the unsettled ones. *)
Definition await (p : Pending) (w : World) : World :=
  set_pending (pending w ++ [p]) w.

(** ** State setters ([useState]) *)

Definition setMessage (v : jsstring) : World -> World :=
  with_state (fun s =>
    {| message := v; messages := messages s; user := user s;
       loading := loading s; typingUsers := typingUsers s;
       attachments := attachments s; uploading := uploading s |}).

Definition setMessages (f : list Message.t -> list Message.t)
  : World -> World :=
  with_state (fun s =>
    {| message := message s; messages := f (messages s); user := user s;
       loading := loading s; typingUsers := typingUsers s;
       attachments := attachments s; uploading := uploading s |}).

Definition setUser (u : option User.t) : World -> World :=
  with_state (fun s =>
    {| message := message s; messages := messages s; user := u;
       loading := loading s; typingUsers := typingUsers s;
       attachments := attachments s; uploading := uploading s |}).

Definition setLoading (b : bool) : World -> World :=
  with_state (fun s =>
    {| message := message s; messages := messages s; user := user s;
       loading := b; typingUsers := typingUsers s;
       attachments := attachments s; uploading := uploading s |}).

Definition setTypingUsers (f : list jsstring -> list jsstring)
  : World -> World :=
  with_state (fun s =>
    {| message := message s; messages := messages s; user := user s;
       loading := loading s; typingUsers := f (typingUsers s);
       attachments := attachments s; uploading := uploading s |}).

Definition setAttachments
  (f : list FileAttachment.t -> list FileAttachment.t) : World -> World :=
  with_state (fun s =>
    {| message := message s; messages := messages s; user := user s;
       loading := loading s; typingUsers := typingUsers s;
       attachments := f (attachments s); uploading := uploading s |}).

Definition setUploading (b : bool) : World -> World :=
  with_state (fun s =>
    {| message := message s; messages := messages s; user := user s;
       loading := loading s; typingUsers := typingUsers s;
       attachments := attachments s; uploading := b |}).

(** ** Timers of the host *)

(** [setTimeout(cb, delay)]: a fresh handle, due [delay] ms from now. *)
Definition setTimeout (cb : TimerCallback) (delay : Z) (w : World)
  : nat * World :=
  let h := nextTimer w in
  (h, set_timers (timers w ++ [{| tid := h; due := (clock w + delay)%Z;
                                  callback := cb |}])
                 (S h) w).

(** [clearTimeout(h)]. *)
Definition clearTimeout (h : nat) (w : World) : World :=
  set_timers (filter (fun tm => negb (Nat.eqb (tid tm) h)) (timers w))
             (nextTimer w) w.

(* ================================================================== *)
(** * The component *)
(* ================================================================== *)

(** ** Room resolver

    [channelId ? `channel-${channelId}`
               : `dm-${[user.id, dmId].sort().join('-')}`] *)
Definition roomId (channelId : optstr) (userId : jsstring) (dmId : optstr)
  : jsstring :=
  if truthy channelId then lit "channel-" ++ join_elt channelId
  else lit "dm-" ++ join (lit "-") (sort [Some userId; dmId]).

(** [a || b] on two string-or-undefined values. *)
Definition or_else (a b : optstr) : optstr := if truthy a then a else b.

(** [user.displayName || user.email?.split('@')[0] || fallback] *)
Definition displayNameOr (u : User.t) (fallback : jsstring) : jsstring :=
  or_str (or_else (User.displayName u)
                  (option_map (split_head 64%N) (User.email u)))
         fallback.

(** The [metadata] the component attaches to [subscribe] and [publish]. *)
Definition metadataOf (u : User.t) : Metadata.t :=
  {| Metadata.displayName := Some (displayNameOr u (lit "Anonymous"));
     Metadata.avatar := Some (or_str (User.avatar u) []) |}.

(** [metadata?.displayName] and [metadata?.avatar]. *)
Definition meta_displayName (m : option Metadata.t) : optstr :=
  match m with Some md => Metadata.displayName md | None => None end.

Definition meta_avatar (m : option Metadata.t) : optstr :=
  match m with Some md => Metadata.avatar md | None => None end.

(** The mapping of a transport message to a [Message], used for the live
    stream and for the backlog alike. *)
Definition toMessage (u : User.t) (m : RealtimeMessage.t) : Message.t :=
  {| Message.id := RealtimeMessage.id m;
     Message.content := Data.content (RealtimeMessage.data m);
     Message.user :=
       {| Author.name :=
            or_str (meta_displayName (RealtimeMessage.metadata m))
                   (lit "Anonymous");
          Author.avatar :=
            or_str (meta_avatar (RealtimeMessage.metadata m)) [] |};
     Message.timestamp := RealtimeMessage.timestamp m;
     Message.isOwn := Some (str_eqb (RealtimeMessage.userId m) (User.id u));
     Message.attachments :=
       Some (match Data.attachments (RealtimeMessage.data m) with
             | Some l => l
             | None => []
             end) |}.

(** The placeholder set when the backlog cannot be loaded; its content
    ends with the waving-hand emoji, a surrogate pair. *)
Definition welcomeMessage (now : Z) : Message.t :=
  {| Message.id := lit "welcome-1";
     Message.content :=
       lit "Welcome to the team workspace! " ++ [55357%N; 56395%N];
     Message.user := {| Author.name := lit "System"; Author.avatar := [] |};
     Message.timestamp := (now - 3600000)%Z;
     Message.isOwn := None;
     Message.attachments := None |}.

(** ** Live event intake: the callback given to [channel.onMessage],
    closed over the [user] of the effect run that registered it. *)
Definition onMessage (u : User.t) (realtimeMessage : RealtimeMessage.t)
  (w : World) : World :=
  if str_eqb (RealtimeMessage.type realtimeMessage) (lit "chat") then
    let newMessage := toMessage u realtimeMessage in
    setMessages (fun prev =>
      if some (fun msg => str_eqb (Message.id msg) (Message.id newMessage))
              prev
      then prev
      else prev ++ [newMessage]) w
  else if str_eqb (RealtimeMessage.type realtimeMessage) (lit "typing") then
    let typingUserId := RealtimeMessage.userId realtimeMessage in
    let isTyping := Data.isTyping (RealtimeMessage.data realtimeMessage) in
    let userName :=
      or_str (meta_displayName (RealtimeMessage.metadata realtimeMessage))
             (lit "Someone") in
    if negb (str_eqb typingUserId (User.id u)) then
      let w1 :=
        setTypingUsers (fun prev =>
          if isTyping then
            if includes prev userName then prev else prev ++ [userName]
          else filter (fun name => negb (str_eqb name userName)) prev) w in
      if isTyping then snd (setTimeout (TypingExpire userName) 3000 w1)
      else w1
    else w
  else w.

(** ** [setupRealtime], split at its two [await]s *)

(** Up to [await channel.subscribe(...)]. *)
Definition setupRealtime (u : User.t) (w : World) : World :=
  let room := roomId (channelId w) (User.id u) (dmId w) in
  let w := set_effectChannel (Some room) w in
  let w := set_channelRef (Some room) w in
  await (AwaitSubscribe {| s_user := u; s_channel := room |})
        (call (Subscribe room (User.id u) (metadataOf u)) w).

(** From the settling of [subscribe] up to [await channel.getMessages];
    a rejection leaves the function and reaches [.catch(console.error)]. *)
Definition setupRealtime_subscribed (s : Session) (ok : bool) (w : World)
  : World :=
  if ok then
    let w := call (OnMessage (s_channel s)) w in
    let w := set_listeners (listeners w ++ [s]) w in
    await (AwaitGetMessages s) (call (GetMessages (s_channel s) 50) w)
  else console_error [] w.

(** From the settling of [getMessages] to the end: the [try] and the
    [catch] branch. *)
Definition setupRealtime_loaded (s : Session)
  (result : option (list RealtimeMessage.t)) (w : World) : World :=
  match result with
  | Some recentMessages =>
      let formattedMessages := map (toMessage (s_user s)) recentMessages in
      setMessages (fun _ => formattedMessages) w
  | None =>
      let w := console_error (lit "Failed to load messages:") w in
      setMessages (fun _ => [welcomeMessage (clock w)]) w
  end.

(** ** Effects *)

(** Body of the realtime effect.  When the guard returns early no cleanup
    is registered. *)
Definition realtime_effect (w : World) : World :=
  match user (state w) with
  | Some u =>
      if negb (truthy_str (User.id u))
         || (negb (truthy (channelId w)) && negb (truthy (dmId w)))
      then set_effectChannel None w
      else setupRealtime u w
  | None => set_effectChannel None w
  end.

(** Cleanup returned by the realtime effect:
    [channel?.unsubscribe(); channelRef.current = null]. *)
Definition realtime_cleanup (w : World) : World :=
  match effectChannel w with
  | Some room => set_channelRef None (call (Unsubscribe room) w)
  | None => w
  end.

(** "Clear messages when switching channels/DMs". *)
Definition clear_effect (w : World) : World :=
  setTypingUsers (fun _ => [])
    (setAttachments (fun _ => []) (setMessages (fun _ => []) w)).

(** ** Attachment stager *)

Definition uploadPath (now : Z) (file : File.t) : jsstring :=
  lit "chat-files/" ++ toString now ++ lit "-" ++ File.name file.

(** Start of the upload of one file of the batch. *)
Definition upload_next (file : File.t) (rest : list File.t)
  (newAttachments : list FileAttachment.t) (w : World) : World :=
  await (AwaitUpload file rest newAttachments)
        (call (Upload file (uploadPath (clock w) file)) w).

(** [handleFileUpload] up to its first [await]. *)
Definition handleFileUpload (files : list File.t) (w : World) : World :=
  match files with
  | [] => w
  | file :: rest => upload_next file rest [] (setUploading true w)
  end.

(** [handleFileUpload] from the settling of one upload on: the rest of
    the loop body, the next iteration, or the end of the [try], the
    [catch] and the [finally]. *)
Definition handleFileUpload_settled (file : File.t) (rest : list File.t)
  (newAttachments : list FileAttachment.t) (result : option jsstring)
  (w : World) : World :=
  match result with
  | Some publicUrl =>
      let newAttachments :=
        newAttachments ++
        [{| FileAttachment.name := File.name file;
            FileAttachment.url := publicUrl;
            FileAttachment.type := File.type file;
            FileAttachment.size := File.size file |}] in
      match rest with
      | next :: rest' => upload_next next rest' newAttachments w
      | [] =>
          setUploading false
            (setAttachments (fun prev => prev ++ newAttachments) w)
      end
  | None =>
      setUploading false (console_error (lit "Failed to upload files:") w)
  end.

Definition removeAttachment (index : nat) (w : World) : World :=
  setAttachments (filter_index (fun i => negb (Nat.eqb i index)) 0) w.

(** ** Composer controller *)

(** [sendTypingIndicator], closed over the [user] of its render; the
    rejection of this publication only reaches [console.error]. *)
Definition sendTypingIndicator (u : option User.t) (isTyping : bool)
  (w : World) : World :=
  match channelRef w, u with
  | Some room, Some usr =>
      if truthy_str (User.id usr) then
        call (Publish room (lit "typing") (TypingData isTyping (clock w))
                      (User.id usr) (metadataOf usr)) w
      else w
  | _, _ => w
  end.

(** [handleSendMessage] up to [await channelRef.current.publish(...)]. *)
Definition handleSendMessage (w : World) : World :=
  let s := state w in
  match user s, channelRef w with
  | Some u, Some room =>
      if (negb (truthy_str (trim (message s)))
          && Nat.eqb (List.length (attachments s)) 0)
         || negb (truthy_str (User.id u))
      then w
      else
        await (AwaitPublishChat u (message s) (attachments s))
              (call (Publish room (lit "chat")
                             (ChatData (message s) (attachments s) (clock w))
                             (User.id u) (metadataOf u)) w)
  | _, _ => w
  end.

(** [handleSendMessage] from the settling of the publication on, with the
    [user], [message] and [attachments] its closure captured. *)
Definition handleSendMessage_settled (u : User.t) (message : jsstring)
  (attachments : list FileAttachment.t) (ok : bool) (w : World) : World :=
  if ok then
    sendTypingIndicator (Some u) false
      (setAttachments (fun _ => []) (setMessage [] w))
  else
    let w := console_error (lit "Failed to send message:") w in
    let fallbackMessage :=
      {| Message.id := toString (clock w);
         Message.content := message;
         Message.user :=
           {| Author.name := displayNameOr u (lit "You");
              Author.avatar := or_str (User.avatar u) [] |};
         Message.timestamp := clock w;
         Message.isOwn := Some true;
         Message.attachments := Some attachments |} in
    setAttachments (fun _ => [])
      (setMessage [] (setMessages (fun prev => prev ++ [fallbackMessage]) w)).

(** ** Typing debouncer, sender side *)

(** A timer handle held in a ref is truthy; [null] is not. *)
Definition armed (r : option nat) : bool :=
  match r with Some _ => true | None => false end.

Definition handleMessageChange (value : jsstring) (w : World) : World :=
  let u := user (state w) in
  let w := setMessage value w in
  let w :=
    if truthy_str (trim value) && negb (armed (typingTimeoutRef w))
    then sendTypingIndicator u true w
    else w in
  let w :=
    match typingTimeoutRef w with
    | Some h => clearTimeout h w
    | None => w
    end in
  let (h, w) := setTimeout (TypingStop u) 1000 w in
  set_typingTimeoutRef (Some h) w.

(** ** Timer callbacks and the passing of time *)

Definition run_callback (cb : TimerCallback) (w : World) : World :=
  match cb with
  | TypingStop u => set_typingTimeoutRef None (sendTypingIndicator u false w)
  | TypingExpire userName =>
      setTypingUsers
        (filter (fun name => negb (str_eqb name userName))) w
  end.

(** Whether timer [a] fires before timer [b]: earlier due time first,
    earlier created first among equals. *)
Definition fires_before (a b : Timer) : bool :=
  (due a <? due b)%Z || ((due a =? due b)%Z && Nat.ltb (tid a) (tid b)).

(** Removes the first timer that fires before all others from the list of
    those due at [t]; [None] when none is due. *)
Fixpoint pop_due (t : Z) (ts : list Timer) : option (Timer * list Timer) :=
  match ts with
  | [] => None
  | tm :: rest =>
      match pop_due t rest with
      | Some (best, rest') =>
          if (due tm <=? t)%Z && negb (fires_before best tm)
          then Some (tm, rest)
          else Some (best, tm :: rest')
      | None => if (due tm <=? t)%Z then Some (tm, rest) else None
      end
  end.

(** One timer fires: the clock stands at its due time (or later, if the
    host is late), the timer is gone, its callback runs. *)
Definition fire (tm : Timer) (rest : list Timer) (w : World) : World :=
  run_callback (callback tm)
    (set_clock (Z.max (clock w) (due tm)) (set_timers rest (nextTimer w) w)).

Fixpoint run_timers (fuel : nat) (t : Z) (w : World) : World :=
  match fuel with
  | O => w
  | S fuel' =>
      match pop_due t (timers w) with
      | Some (tm, rest) => run_timers fuel' t (fire tm rest w)
      | None => w
      end
  end.

(** Time passes until [t] with no other event: every timer due by then
    fires, in order.  No callback of this component arms a timer, so the
    number of pending timers bounds the number of firings. *)
Definition advance_to (t : Z) (w : World) : World :=
  let w' := run_timers (List.length (timers w)) t w in
  set_clock (Z.max (clock w') t) w'.

(** ** Rendering: date labels and separators *)

(** [formatDate(date)], evaluated while the host clock reads [now]. *)
Definition formatDate (tz : TimeZone) (now : Z) (date : Z) : jsstring :=
  let today := now in
  let yesterday := setDate tz today (getDate tz today - 1) in
  if str_eqb (toDateString tz date) (toDateString tz today) then
    lit "Today"
  else if str_eqb (toDateString tz date) (toDateString tz yesterday) then
    lit "Yesterday"
  else toLocaleDateString_month_day tz date.





(** ** The component as a reducer over host events *)

Inductive Event :=
| AuthStateChanged (u : option User.t) (isLoading : bool)
| SelectRoom (channelId dmId : optstr)     (* new props from the parent *)
| Settle (k : nat) (o : Outcome)           (* k-th unsettled promise *)
| Push (s : Session) (m : RealtimeMessage.t)
| Change (value : jsstring)                (* composer onChange *)
| Send                                     (* send button or Enter *)
| FilesSelected (files : list File.t)
| RemoveAttachment (index : nat)
| Tick (t : Z).                            (* time passes until t *)

Definition optstr_eqb (a b : optstr) : bool :=
  match a, b with
  | Some x, Some y => str_eqb x y
  | None, None => true
  | _, _ => false
  end.

(** The user-dependent entries of the realtime effect's dependency list:
    [user?.id, user?.displayName, user?.email, user?.avatar]. *)
Definition user_deps (u : option User.t) : list optstr :=
  match u with
  | Some usr =>
      [Some (User.id usr); User.displayName usr; User.email usr;
       User.avatar usr]
  | None => [None; None; None; None]
  end.

Fixpoint deps_eqb (a b : list optstr) : bool :=
  match a, b with
  | [], [] => true
  | x :: a', y :: b' => optstr_eqb x y && deps_eqb a' b'
  | _, _ => false
  end.

Fixpoint remove_nth {A} (k : nat) (l : list A) : list A :=
  match k, l with
  | _, [] => []
  | O, _ :: rest => rest
  | S k', x :: rest => x :: remove_nth k' rest
  end.

Definition session_eqb (a b : Session) : bool :=
  str_eqb (s_channel a) (s_channel b)
  && deps_eqb (user_deps (Some (s_user a))) (user_deps (Some (s_user b))).

(** The continuation of a settled promise.  An outcome of the wrong shape
    for the promise is not a run of the program; it changes nothing. *)
Definition resume (p : Pending) (o : Outcome) (w : World) : option World :=
  match p, o with
  | AwaitSubscribe s, Resolved => Some (setupRealtime_subscribed s true w)
  | AwaitSubscribe s, Rejected => Some (setupRealtime_subscribed s false w)
  | AwaitGetMessages s, ResolvedMessages ms =>
      Some (setupRealtime_loaded s (Some ms) w)
  | AwaitGetMessages s, Rejected => Some (setupRealtime_loaded s None w)
  | AwaitPublishChat u m a, Resolved =>
      Some (handleSendMessage_settled u m a true w)
  | AwaitPublishChat u m a, Rejected =>
      Some (handleSendMessage_settled u m a false w)
  | AwaitUpload f r acc, ResolvedUpload publicUrl =>
      Some (handleFileUpload_settled f r acc (Some publicUrl) w)
  | AwaitUpload f r acc, Rejected =>
      Some (handleFileUpload_settled f r acc None w)
  | _, _ => None
  end.

Definition step (w : World) (e : Event) : World :=
  match e with
  | AuthStateChanged u isLoading =>
      let old := user (state w) in
      let w := setLoading isLoading (setUser u w) in
      if deps_eqb (user_deps old) (user_deps u) then w
      else realtime_effect (realtime_cleanup w)
  | SelectRoom c d =>
      if optstr_eqb c (channelId w) && optstr_eqb d (dmId w) then w
      else clear_effect (realtime_effect (set_props c d (realtime_cleanup w)))
  | Settle k o =>
      match nth_error (pending w) k with
      | Some p =>
          match resume p o (set_pending (remove_nth k (pending w)) w) with
          | Some w' => w'
          | None => w
          end
      | None => w
      end
  | Push s m =>
      if existsb (session_eqb s) (listeners w)
      then onMessage (s_user s) m w
      else w
  | Change value => handleMessageChange value w
  | Send => handleSendMessage w
  | FilesSelected files => handleFileUpload files w
  | RemoveAttachment index => removeAttachment index w
  | Tick t => advance_to t w
  end.

Definition run (w : World) (events : list Event) : World :=
  fold_left step events w.

(** The component after its first render and effects, at time [now]: no
    user yet, so the realtime effect returns at its guard. *)
Definition mount (channelId dmId : optstr) (now : Z) : World :=
  {| channelId := channelId; dmId := dmId;
     state := {| message := []; messages := []; user := None;
                 loading := true; typingUsers := []; attachments := [];
                 uploading := false |};
     channelRef := None; typingTimeoutRef := None; effectChannel := None;
     clock := now; timers := []; nextTimer := 1; pending := [];
     listeners := []; transport := []; console := [] |}.

(** ** Notions used to state the properties *)

(** Number of transcript entries carrying the id [i]. *)
Definition count_id (i : jsstring) (ms : list Message.t) : nat :=
  List.length (filter (fun msg => str_eqb (Message.id msg) i) ms).

(** A burst of composer keystrokes, each given by the instant at which it
    happens and the value it leaves in the input: time passes until the
    keystroke, then [onChange] runs. *)
Definition burst_events (keys : list (Z * jsstring)) : list Event :=
  flat_map (fun k => [Tick (fst k); Change (snd k)]) keys.

(** Every keystroke follows the previous one by less than 1000 ms. *)
Fixpoint within_burst (prev : Z) (keys : list (Z * jsstring)) : Prop :=
  match keys with
  | [] => True
  | k :: rest =>
      (prev <= fst k < prev + 1000)%Z /\ within_burst (fst k) rest
  end.

(** The instant of the last keystroke of a burst that began at [prev]. *)
Fixpoint last_time (prev : Z) (keys : list (Z * jsstring)) : Z :=
  match keys with
  | [] => prev
  | k :: rest => last_time (fst k) rest
  end.

(** The [typing] publication of user [u] on [room] at instant [t]. *)
Definition typing_signal (room : jsstring) (u : User.t) (isTyping : bool)
  (t : Z) : TransportCall :=
  Publish room (lit "typing") (TypingData isTyping t) (User.id u)
          (metadataOf u).

(** Whether a timer is the sender's stop timer. *)
Definition is_stop (tm : Timer) : bool :=
  match callback tm with
  | TypingStop _ => true
  | TypingExpire _ => false
  end.

(** What holds between two keystrokes of a burst: the clock stands at the
    last keystroke [t], the log is [X], and the only stop timer is the
    one held in the ref, due at [t + 1000]. *)
Definition burst_inv (u : User.t) (room : jsstring) (t : Z)
  (X : list TransportCall) (w : World) : Prop :=
  clock w = t
  /\ user (state w) = Some u
  /\ channelRef w = Some room
  /\ transport w = X
  /\ exists h,
       typingTimeoutRef w = Some h
       /\ filter is_stop (timers w)
          = [{| tid := h; due := (t + 1000)%Z;
                callback := TypingStop (Some u) |}].

(** Number of [typing] publications with the given flag in a log. *)
Definition count_typing (isTyping : bool) (log : list TransportCall) : nat :=
  List.length
    (filter (fun c =>
               match c with
               | Publish _ _ (TypingData b _) _ _ => Bool.eqb b isTyping
               | _ => false
               end) log).

(** The settlements of an upload batch in which the uploads of the first
    files succeed with [urls] and the next upload fails; [n] is the
    position of the batch's promise among the unsettled ones. *)
Definition failing_batch (n : nat) (urls : list jsstring) : list Event :=
  map (fun publicUrl => Settle n (ResolvedUpload publicUrl)) urls
  ++ [Settle n Rejected].

(** ** Sample data for concrete runs *)

Module Sample.

Definition utc : TimeZone :=
  {| tza_utc := fun _ => 0%Z; tza_local := fun _ => 0%Z |}.

Definition alice : User.t :=
  {| User.id := lit "u-alice";
     User.displayName := Some (lit "Alice");
     User.email := Some (lit "alice@example.com");
     User.avatar := None |}.

(** A message sent by Bob at instant [ts]. *)
Definition from_bob (id : string) (type : string) (content : string)
  (isTyping : bool) (ts : Z) : RealtimeMessage.t :=
  {| RealtimeMessage.id := lit id;
     RealtimeMessage.type := lit type;
     RealtimeMessage.data :=
       {| Data.content := lit content; Data.attachments := None;
          Data.isTyping := isTyping |};
     RealtimeMessage.metadata :=
       Some {| Metadata.displayName := Some (lit "Bob");
               Metadata.avatar := None |};
     RealtimeMessage.userId := lit "u-bob";
     RealtimeMessage.timestamp := ts |}.

(** The parent renders channel [general]; Alice signs in; the
    subscription is confirmed, so the backlog fetch is in flight. *)
Definition general : World := mount (Some (lit "general")) (Some []) 0.

Definition signed_in : World :=
  step general (AuthStateChanged (Some alice) false).

Definition subscribed : World := step signed_in (Settle 0 Resolved).

(** The backlog arrived empty: the room is live. *)
Definition live : World := step subscribed (Settle 0 (ResolvedMessages [])).

(** Alice has typed [hello] into the composer of the live room. *)
Definition typed_hello : World := step live (Change (lit "hello")).

Definition general_session : Session :=
  {| s_user := alice; s_channel := lit "channel-general" |}.


(** Noon and evening of 5 March 2023, noon of 5 March 2024, and the
    morning of 2 November 2026, UTC. *)
Definition mar5_2023_noon : Z := 1678017600000.
Definition mar5_2024_noon : Z := 1709640000000.
Definition nov2_2026 : Z := 1793613600000.

Definition photo : File.t :=
  {| File.name := lit "a.png"; File.type := lit "image/png";
     File.size := 10 |}.

Definition notes : File.t :=
  {| File.name := lit "b.txt"; File.type := lit "text/plain";
     File.size := 20 |}.

End Sample.

(** ** Further notions: uploads *)

(** The stage entry built from a file and the URL of its upload. *)
Definition attachmentOf (file : File.t) (publicUrl : jsstring)
  : FileAttachment.t :=
  {| FileAttachment.name := File.name file;
     FileAttachment.url := publicUrl;
     FileAttachment.type := File.type file;
     FileAttachment.size := File.size file |}.

(** The settlements of an upload batch in which every upload succeeds,
    the i-th with the i-th of [urls]. *)
Definition succeeding_batch (n : nat) (urls : list jsstring) : list Event :=
  map (fun publicUrl => Settle n (ResolvedUpload publicUrl)) urls.

(** The stage entries of a batch, in the order of the files. *)
Fixpoint stagedOf (files : list File.t) (urls : list jsstring)
  : list FileAttachment.t :=
  match files, urls with
  | file :: files', publicUrl :: urls' =>
      attachmentOf file publicUrl :: stagedOf files' urls'
  | _, _ => []
  end.

(** ** Further notions: invariants of the running component *)

(** What decides the room the component talks to. *)
Definition session_fields (w : World)
  : optstr * optstr * option User.t * option jsstring * option jsstring :=
  (channelId w, dmId w, user (state w), channelRef w, effectChannel w).

(** The channel held in [channelRef] is the one the last run of the
    realtime effect opened, and it is the room of the current selection
    and the current user. *)
Definition session_ok (w : World) : Prop :=
  channelRef w = effectChannel w
  /\ forall room,
       channelRef w = Some room ->
       exists u,
         user (state w) = Some u
         /\ truthy_str (User.id u) = true
         /\ truthy (channelId w) || truthy (dmId w) = true
         /\ room = roomId (channelId w) (User.id u) (dmId w).

(** The sender's stop timer and the ref that holds its handle. *)
Definition timer_fields (w : World) : option nat * list Timer :=
  (typingTimeoutRef w, filter is_stop (timers w)).

(** Either no stop timer is pending and the ref is [null], or exactly
    one is pending and the ref holds its handle. *)
Definition stop_timer_ok (w : World) : Prop :=
  (typingTimeoutRef w = None /\ filter is_stop (timers w) = [])
  \/ exists s, typingTimeoutRef w = Some (tid s)
               /\ filter is_stop (timers w) = [s].

(** An id without the separator [-] of direct-message room ids. *)
Definition no_dash (s : jsstring) : bool :=
  forallb (fun c => negb (N.eqb c 45)) s.

(** ** A pending stop signal across a room change *)

(** The events of a room change made while a burst's stop timer is
    pending, followed by the passing of time until [T]. *)
Definition switch_then_wait (c d : optstr) (T : Z) : list Event :=
  [SelectRoom c d; Tick T].

(* ================================================================== *)
(** * The sidebar *)
(* ================================================================== *)

(** [p] is a prefix of [s]. *)
Fixpoint starts_with (p s : jsstring) : bool :=
  match p, s with
  | [], _ => true
  | x :: p', y :: s' => N.eqb x y && starts_with p' s'
  | _ :: _, [] => false
  end.

(** [s.includes(search)]: [search] occurs in [s] at some position. *)
Fixpoint str_includes (s search : jsstring) : bool :=
  starts_with search s
  || match s with
     | [] => false
     | _ :: s' => str_includes s' search
     end.

(** An entry of the sidebar's [channels]. *)
Module SidebarChannel.
Record t := { id : jsstring; name : jsstring; unread : Z }.
End SidebarChannel.

(** An entry of the sidebar's [directMessages]. *)
Module SidebarDM.
Record t := {
  id : jsstring;
  name : jsstring;
  status : jsstring;
  unread : Z
}.
End SidebarDM.

Module Sidebar.

Definition channels : list SidebarChannel.t :=
  [ {| SidebarChannel.id := lit "general";
       SidebarChannel.name := lit "general"; SidebarChannel.unread := 0 |};
    {| SidebarChannel.id := lit "random";
       SidebarChannel.name := lit "random"; SidebarChannel.unread := 2 |};
    {| SidebarChannel.id := lit "announcements";
       SidebarChannel.name := lit "announcements";
       SidebarChannel.unread := 0 |};
    {| SidebarChannel.id := lit "development";
       SidebarChannel.name := lit "development";
       SidebarChannel.unread := 5 |};
    {| SidebarChannel.id := lit "design";
       SidebarChannel.name := lit "design"; SidebarChannel.unread := 1 |} ].

Definition directMessages : list SidebarDM.t :=
  [ {| SidebarDM.id := lit "john"; SidebarDM.name := lit "John Doe";
       SidebarDM.status := lit "online"; SidebarDM.unread := 0 |};
    {| SidebarDM.id := lit "sarah"; SidebarDM.name := lit "Sarah Wilson";
       SidebarDM.status := lit "online"; SidebarDM.unread := 3 |};
    {| SidebarDM.id := lit "mike"; SidebarDM.name := lit "Mike Johnson";
       SidebarDM.status := lit "away"; SidebarDM.unread := 0 |};
    {| SidebarDM.id := lit "emma"; SidebarDM.name := lit "Emma Davis";
       SidebarDM.status := lit "offline"; SidebarDM.unread := 1 |} ].

Section Search.

(** [String.prototype.toLowerCase] of the host: the Unicode case mapping
    is not spelled out here; the search is stated for any such function. *)
Variable toLowerCase : jsstring -> jsstring.

(** [channels.filter(channel =>
      channel.name.toLowerCase().includes(searchQuery.toLowerCase()))] *)
Definition filteredChannels (searchQuery : jsstring)
  : list SidebarChannel.t :=
  filter (fun channel =>
            str_includes (toLowerCase (SidebarChannel.name channel))
                         (toLowerCase searchQuery))
         channels.

Definition filteredDMs (searchQuery : jsstring) : list SidebarDM.t :=
  filter (fun dm =>
            str_includes (toLowerCase (SidebarDM.name dm))
                         (toLowerCase searchQuery))
         directMessages.

End Search.

(** Lower-casing of the ASCII letters, which is what [toLowerCase] does
    on strings of ASCII characters. *)
Definition ascii_toLowerCase (s : jsstring) : jsstring :=
  map (fun c => if (65 <=? c)%N && (c <=? 90)%N then (c + 32)%N else c) s.

End Sidebar.

(* ================================================================== *)
(** * The application shell *)
(* ================================================================== *)

Module App.

(** React state of [App]. *)
Record t := {
  user : option User.t;
  loading : bool;
  selectedChannel : jsstring;
  selectedDM : jsstring;
  sidebarOpen : bool
}.

Definition init : t :=
  {| user := None; loading := true; selectedChannel := lit "general";
     selectedDM := []; sidebarOpen := false |}.

Definition handleChannelSelect (channelId : jsstring) (s : t) : t :=
  {| user := user s; loading := loading s; selectedChannel := channelId;
     selectedDM := []; sidebarOpen := false |}.

Definition handleDMSelect (dmId : jsstring) (s : t) : t :=
  {| user := user s; loading := loading s; selectedChannel := [];
     selectedDM := dmId; sidebarOpen := false |}.

(** A click on an entry of the sidebar. *)
Inductive Selection :=
| ChannelClicked (channelId : jsstring)
| DMClicked (dmId : jsstring).

Definition selected_id (sel : Selection) : jsstring :=
  match sel with ChannelClicked i => i | DMClicked i => i end.

Definition select (s : t) (sel : Selection) : t :=
  match sel with
  | ChannelClicked channelId => handleChannelSelect channelId s
  | DMClicked dmId => handleDMSelect dmId s
  end.

(** The [channelId] and [dmId] props handed to [ChatArea]. *)
Definition chatAreaProps (s : t) : optstr * optstr :=
  (Some (selectedChannel s), Some (selectedDM s)).

End App.

(* ================================================================== *)
(** * The message notification *)
(* ================================================================== *)

Module Notification.

(** Callbacks handed to [setTimeout]: the animate-in callback, the
    auto-dismiss callback, and [onClose]. *)
Inductive Callback := Show | Dismiss | Close.

Record Timer := { tid : nat; due : Z; callback : Callback }.

(** The component in its host: its state, the handles [timer] and
    [dismissTimer] of the mounted effect ([None] once unmounted), the
    host's clock and timers, and the instants at which the parent's
    [onClose] was called.  The parent passes the same [onClose] for the
    whole life of the notification, so the effect runs once. *)
Record t := {
  isVisible : bool;
  effect : option (nat * nat);
  clock : Z;
  timers : list Timer;
  nextTimer : nat;
  closed : list Z
}.

Definition setIsVisible (b : bool) (n : t) : t :=
  {| isVisible := b; effect := effect n; clock := clock n;
     timers := timers n; nextTimer := nextTimer n; closed := closed n |}.

Definition setTimeout (cb : Callback) (delay : Z) (n : t) : nat * t :=
  let h := nextTimer n in
  (h, {| isVisible := isVisible n; effect := effect n; clock := clock n;
         timers := timers n ++ [{| tid := h; due := (clock n + delay)%Z;
                                   callback := cb |}];
         nextTimer := S h; closed := closed n |}).

Definition clearTimeout (h : nat) (n : t) : t :=
  {| isVisible := isVisible n; effect := effect n; clock := clock n;
     timers := filter (fun tm => negb (Nat.eqb (tid tm) h)) (timers n);
     nextTimer := nextTimer n; closed := closed n |}.

(** First render and effect, at instant [now]. *)
Definition mount (now : Z) : t :=
  let n := {| isVisible := false; effect := None; clock := now;
              timers := []; nextTimer := 1; closed := [] |} in
  let (timer, n) := setTimeout Show 100 n in
  let (dismissTimer, n) := setTimeout Dismiss 5000 n in
  {| isVisible := isVisible n; effect := Some (timer, dismissTimer);
     clock := clock n; timers := timers n; nextTimer := nextTimer n;
     closed := closed n |}.

(** The effect's cleanup, run when the component is removed. *)
Definition unmount (n : t) : t :=
  match effect n with
  | Some (timer, dismissTimer) =>
      let n := clearTimeout dismissTimer (clearTimeout timer n) in
      {| isVisible := isVisible n; effect := None; clock := clock n;
         timers := timers n; nextTimer := nextTimer n; closed := closed n |}
  | None => n
  end.

(** [handleClose], the close button. *)
Definition handleClose (n : t) : t :=
  snd (setTimeout Close 300 (setIsVisible false n)).

Definition run_callback (cb : Callback) (n : t) : t :=
  match cb with
  | Show => setIsVisible true n
  | Dismiss => snd (setTimeout Close 300 (setIsVisible false n))
  | Close =>
      {| isVisible := isVisible n; effect := effect n; clock := clock n;
         timers := timers n; nextTimer := nextTimer n;
         closed := closed n ++ [clock n] |}
  end.

Definition fires_before (a b : Timer) : bool :=
  (due a <? due b)%Z || ((due a =? due b)%Z && Nat.ltb (tid a) (tid b)).

Fixpoint pop_due (T : Z) (ts : list Timer) : option (Timer * list Timer) :=
  match ts with
  | [] => None
  | tm :: rest =>
      match pop_due T rest with
      | Some (best, rest') =>
          if (due tm <=? T)%Z && negb (fires_before best tm)
          then Some (tm, rest)
          else Some (best, tm :: rest')
      | None => if (due tm <=? T)%Z then Some (tm, rest) else None
      end
  end.

Definition fire (tm : Timer) (rest : list Timer) (n : t) : t :=
  run_callback (callback tm)
    {| isVisible := isVisible n; effect := effect n;
       clock := Z.max (clock n) (due tm); timers := rest;
       nextTimer := nextTimer n; closed := closed n |}.

Fixpoint run_timers (fuel : nat) (T : Z) (n : t) : t :=
  match fuel with
  | O => n
  | S fuel' =>
      match pop_due T (timers n) with
      | Some (tm, rest) => run_timers fuel' T (fire tm rest n)
      | None => n
      end
  end.

(** Time passes until [T].  A dismissal arms one more timer and that one
    arms none, so twice the number of pending timers bounds the number
    of firings. *)
Definition advance_to (T : Z) (n : t) : t :=
  let n' := run_timers (2 * List.length (timers n)) T n in
  {| isVisible := isVisible n'; effect := effect n';
     clock := Z.max (clock n') T; timers := timers n';
     nextTimer := nextTimer n'; closed := closed n' |}.

Inductive Event :=
| Tick (T : Z)       (* time passes until T *)
| Click              (* the close button *)
| Unmount.           (* the parent removes the notification *)

Definition step (n : t) (e : Event) : t :=
  match e with
  | Tick T => advance_to T n
  | Click => handleClose n
  | Unmount => unmount n
  end.

Definition run (n : t) (events : list Event) : t :=
  fold_left step events n.

End Notification.

(** ** Avatar initials *)

(** [s.split(sep)] for a one-unit separator; the result is never empty. *)
Fixpoint split_on (sep : N) (s : jsstring) : list jsstring :=
  match s with
  | [] => [[]]
  | c :: s' =>
      if N.eqb c sep then [] :: split_on sep s'
      else
        match split_on sep s' with
        | part :: parts => (c :: part) :: parts
        | [] => [[c]]
        end
  end.

(** [n[0]]: the first code unit as a string, [undefined] for [""]. *)
Definition first_unit (n : jsstring) : optstr :=
  match n with
  | [] => None
  | c :: _ => Some [c]
  end.

(** [name.split(' ').map(n => n[0]).join('')], the fallback text of an
    avatar. *)
Definition initials (name : jsstring) : jsstring :=
  join [] (map first_unit (split_on 32 name)).

(* ================================================================== *)
(** * Facts about the platform functions *)
(* ================================================================== *)

Lemma str_eqb_refl (a : jsstring) : str_eqb a a = true.
Proof.
  induction a as [|x a IH]; simpl; [reflexivity|].
  now rewrite N.eqb_refl, IH.
Qed.

Lemma str_eqb_eq (a b : jsstring) : str_eqb a b = true <-> a = b.
Proof.
  split.
  - revert b; induction a as [|x a IH]; intros [|y b]; simpl;
      try discriminate; auto.
    intros H. apply andb_true_iff in H as [Hx Hr].
    apply N.eqb_eq in Hx. f_equal; auto.
  - intros ->. apply str_eqb_refl.
Qed.

Lemma str_eqb_neq (a b : jsstring) : str_eqb a b = false <-> a <> b.
Proof.
  split.
  - intros H E. apply str_eqb_eq in E. congruence.
  - intros H. destruct (str_eqb a b) eqn:E; [|reflexivity].
    apply str_eqb_eq in E. contradiction.
Qed.

Lemma str_compare_eq (a b : jsstring) : str_compare a b = Eq -> a = b.
Proof.
  revert b; induction a as [|x a IH]; intros [|y b]; simpl;
    try discriminate; auto.
  destruct (N.compare x y) eqn:E; try discriminate.
  apply N.compare_eq in E. intros H. f_equal; auto.
Qed.

Lemma str_compare_antisym (a b : jsstring) :
  str_compare b a = CompOpp (str_compare a b).
Proof.
  revert b; induction a as [|x a IH]; intros [|y b]; simpl; auto.
  rewrite (N.compare_antisym x y).
  destruct (N.compare x y); simpl; auto.
Qed.

(** The order is total: two strings neither of which is below the other
    are the same string. *)
Lemma str_ltb_total (a b : jsstring) :
  str_ltb a b = false -> str_ltb b a = false -> a = b.
Proof.
  unfold str_ltb. rewrite (str_compare_antisym a b).
  destruct (str_compare a b) eqn:E; simpl; try discriminate.
  intros _ _. now apply str_compare_eq.
Qed.

Lemma str_ltb_asym (a b : jsstring) :
  str_ltb a b = true -> str_ltb b a = false.
Proof.
  unfold str_ltb. rewrite (str_compare_antisym a b).
  destruct (str_compare a b); simpl; congruence.
Qed.

(** The date functions on known dates. *)
Example toDateString_epoch :
  toDateString Sample.utc 0 = lit "Thu Jan 01 1970".
Proof. reflexivity. Qed.

Example toDateString_leap_day :
  toDateString Sample.utc 1709164800000 = lit "Thu Feb 29 2024".
Proof. vm_compute. reflexivity. Qed.

Example setDate_previous_month :
  toDateString Sample.utc
    (setDate Sample.utc 1709251200000 (getDate Sample.utc 1709251200000 - 1))
  = lit "Thu Feb 29 2024".
Proof. vm_compute. reflexivity. Qed.

Example formatDate_labels :
  formatDate Sample.utc Sample.nov2_2026 Sample.nov2_2026 = lit "Today"
  /\ formatDate Sample.utc Sample.nov2_2026 1793523600000 = lit "Yesterday"
  /\ formatDate Sample.utc Sample.nov2_2026 Sample.mar5_2023_noon
     = lit "March 5"
  /\ formatDate Sample.utc Sample.nov2_2026 Sample.mar5_2024_noon
     = lit "March 5".
Proof. vm_compute. repeat split. Qed.

Example trim_blank : trim (lit "  ") = [] /\ trim (lit " h ") = lit "h".
Proof. split; reflexivity. Qed.

(** Sorting a pair of strings puts the smaller first, whichever way
    round the pair was given. *)
Lemma sort_pair (a b : jsstring) :
  sort [Some a; Some b] = if str_ltb b a then [Some b; Some a]
                          else [Some a; Some b].
Proof.
  simpl. destruct (str_ltb a b) eqn:Hab.
  - rewrite (str_ltb_asym _ _ Hab). reflexivity.
  - destruct (str_ltb b a); reflexivity.
Qed.

(** The record of a world is determined by its fields. *)
Lemma setMessages_same (w : World) : setMessages (fun prev => prev) w = w.
Proof. destruct w as [? ? [] ? ? ? ? ? ? ? ? ? ?]; reflexivity. Qed.

Lemma setMessages_ext (f g : list Message.t -> list Message.t) (w : World) :
  f (messages (state w)) = g (messages (state w)) ->
  setMessages f w = setMessages g w.
Proof.
  intros H. unfold setMessages, with_state. simpl. now rewrite H.
Qed.

Lemma count_id_app (i : jsstring) (a b : list Message.t) :
  count_id i (a ++ b) = count_id i a + count_id i b.
Proof. unfold count_id. now rewrite filter_app, length_app. Qed.

Lemma count_id_absent (i : jsstring) (ms : list Message.t) :
  some (fun msg => str_eqb (Message.id msg) i) ms = false ->
  count_id i ms = 0.
Proof.
  unfold some, count_id. induction ms as [|m ms IH]; simpl; auto.
  intros H. apply orb_false_iff in H as [Hm Hr].
  rewrite Hm. auto.
Qed.

(* ================================================================== *)
(** * Properties *)
(* ================================================================== *)

(** ** Room resolver *)

(** C1 - Room id symmetry.  On the direct-message path (no channel
    selected) the room id computed for current user [A] and peer [B] is
    the one computed for current user [B] and peer [A]: it is [dm-]
    followed by the two ids in code-unit order, joined by [-].  The two
    ids need not even be distinct. *)
Theorem room_id_symmetry (channel : optstr) (A B : jsstring) :
  truthy channel = false ->
  roomId channel A (Some B) = roomId channel B (Some A)
  /\ roomId channel A (Some B)
     = lit "dm-" ++ (if str_ltb B A then B ++ lit "-" ++ A
                     else A ++ lit "-" ++ B).
Proof.
  intros Hc. unfold roomId. rewrite Hc, !sort_pair.
  destruct (str_ltb B A) eqn:HBA.
  - rewrite (str_ltb_asym _ _ HBA). split; reflexivity.
  - destruct (str_ltb A B) eqn:HAB.
    + split; reflexivity.
    + rewrite (str_ltb_total _ _ HAB HBA). split; reflexivity.
Qed.

Lemma room_id_symmetry_witness :
  truthy (Some []) = false
  /\ (roomId (Some []) (lit "u-bob") (Some (lit "u-alice"))
      = roomId (Some []) (lit "u-alice") (Some (lit "u-bob"))
      /\ roomId (Some []) (lit "u-bob") (Some (lit "u-alice"))
         = lit "dm-" ++ (if str_ltb (lit "u-alice") (lit "u-bob")
                         then lit "u-alice" ++ lit "-" ++ lit "u-bob"
                         else lit "u-bob" ++ lit "-" ++ lit "u-alice")).
Proof.
  split; [reflexivity|].
  apply (room_id_symmetry (Some []) (lit "u-bob") (lit "u-alice")).
  reflexivity.
Defined.

(** ** Message reconciler *)

(** C2 - De-duplication of live intake.  A live [chat] event whose id is
    already in the transcript leaves the whole component unchanged; so a
    message id absent from the transcript and delivered twice ends up in
    it exactly once. *)
Theorem live_intake_deduplicates (u : User.t) (m : RealtimeMessage.t)
  (w : World) :
  RealtimeMessage.type m = lit "chat" ->
  (some (fun msg => str_eqb (Message.id msg) (RealtimeMessage.id m))
        (messages (state w)) = true ->
   onMessage u m w = w)
  /\ (forall m' : RealtimeMessage.t,
        RealtimeMessage.type m' = lit "chat" ->
        RealtimeMessage.id m' = RealtimeMessage.id m ->
        some (fun msg => str_eqb (Message.id msg) (RealtimeMessage.id m))
             (messages (state w)) = false ->
        onMessage u m' (onMessage u m w) = onMessage u m w
        /\ messages (state (onMessage u m w))
           = messages (state w) ++ [toMessage u m]
        /\ count_id (RealtimeMessage.id m)
                    (messages (state (onMessage u m' (onMessage u m w))))
           = 1).
Proof.
  intros Hty. split.
  - intros Hin. unfold onMessage. rewrite Hty. simpl str_eqb.
    transitivity (setMessages (fun prev => prev) w);
      [|apply setMessages_same].
    apply setMessages_ext. simpl. now rewrite Hin.
  - intros m' Hty' Hid Hout.
    assert (H1 : messages (state (onMessage u m w))
                 = messages (state w) ++ [toMessage u m]).
    { unfold onMessage. rewrite Hty. simpl. now rewrite Hout. }
    assert (H2 : onMessage u m' (onMessage u m w) = onMessage u m w).
    { unfold onMessage at 1. rewrite Hty'. simpl str_eqb.
      transitivity (setMessages (fun prev => prev) (onMessage u m w));
        [|apply setMessages_same].
      apply setMessages_ext. rewrite H1. simpl. rewrite Hid.
      unfold some. rewrite existsb_app. simpl.
      now rewrite str_eqb_refl, orb_true_r. }
    repeat split; auto.
    rewrite H2, H1, count_id_app, (count_id_absent _ _ Hout).
    unfold count_id. simpl. now rewrite str_eqb_refl.
Qed.

Lemma live_intake_deduplicates_witness :
  let m := Sample.from_bob "m1" "chat" "hi" false 5 in
  RealtimeMessage.type m = lit "chat"
  /\ count_id (RealtimeMessage.id m)
       (messages (state (onMessage Sample.alice m
                           (onMessage Sample.alice m Sample.live))))
     = 1.
Proof.
  intros m. split; [reflexivity|].
  destruct (live_intake_deduplicates Sample.alice m Sample.live eq_refl)
    as [_ Htwice].
  exact (proj2 (proj2 (Htwice m eq_refl eq_refl eq_refl))).
Defined.

(** C6 - Backlog-fetch failure fallback.  When the promise of
    [getMessages] is rejected the transcript becomes exactly one message,
    the welcome placeholder authored by [System]; the failure goes to the
    console log and no other piece of displayed state changes. *)
Theorem backlog_failure_fallback (w : World) (k : nat) (s : Session) :
  nth_error (pending w) k = Some (AwaitGetMessages s) ->
  let w' := step w (Settle k Rejected) in
  messages (state w') = [welcomeMessage (clock w)]
  /\ List.length (messages (state w')) = 1
  /\ Author.name (Message.user (welcomeMessage (clock w))) = lit "System"
  /\ console w' = console w ++ [lit "Failed to load messages:"]
  /\ message (state w') = message (state w)
  /\ user (state w') = user (state w)
  /\ loading (state w') = loading (state w)
  /\ typingUsers (state w') = typingUsers (state w)
  /\ attachments (state w') = attachments (state w)
  /\ uploading (state w') = uploading (state w).
Proof.
  intros Hk. simpl. rewrite Hk. simpl. repeat split.
Qed.

Lemma backlog_failure_fallback_witness :
  nth_error (pending Sample.subscribed) 0
  = Some (AwaitGetMessages Sample.general_session)
  /\ messages (state (step Sample.subscribed (Settle 0 Rejected)))
     = [welcomeMessage 0].
Proof.
  split; [reflexivity|].
  exact (proj1 (backlog_failure_fallback Sample.subscribed 0
                  Sample.general_session eq_refl)).
Defined.

(** ** Typing indicators, receiver side *)

(** C10 - Own typing signals are ignored.  A [typing] event whose sender
    is the session user changes nothing: no name is added to or removed
    from the typing list, and no expiry is armed. *)
Theorem own_typing_ignored (u : User.t) (m : RealtimeMessage.t)
  (w : World) :
  RealtimeMessage.type m = lit "typing" ->
  RealtimeMessage.userId m = User.id u ->
  onMessage u m w = w.
Proof.
  intros Hty Hid. unfold onMessage. rewrite Hty, Hid.
  simpl str_eqb. now rewrite str_eqb_refl.
Qed.

Lemma own_typing_ignored_witness :
  let m := {| RealtimeMessage.id := lit "t1";
              RealtimeMessage.type := lit "typing";
              RealtimeMessage.data :=
                {| Data.content := []; Data.attachments := None;
                   Data.isTyping := true |};
              RealtimeMessage.metadata := None;
              RealtimeMessage.userId := lit "u-alice";
              RealtimeMessage.timestamp := 5 |} in
  RealtimeMessage.type m = lit "typing"
  /\ RealtimeMessage.userId m = User.id Sample.alice
  /\ onMessage Sample.alice m Sample.live = Sample.live.
Proof.
  intros m. split; [reflexivity|]. split; [reflexivity|].
  apply (own_typing_ignored Sample.alice m Sample.live); reflexivity.
Defined.

(** ** Composer controller *)



(** ** Attachment stager *)

Lemma nth_error_app_last {A} (l : list A) (a : A) :
  nth_error (l ++ [a]) (List.length l) = Some a.
Proof. induction l; simpl; auto. Qed.

Lemma remove_nth_app_last {A} (l : list A) (a : A) :
  remove_nth (List.length l) (l ++ [a]) = l.
Proof. induction l; simpl; auto. now f_equal. Qed.

(** The upload loop from the moment one upload of the batch is awaited:
    [urls] more uploads succeed, the next one fails. *)
Lemma upload_loop_fails (urls : list jsstring) :
  forall (file : File.t) (rest : list File.t)
         (acc : list FileAttachment.t) (P : list Pending) (wi : World),
    pending wi = P ++ [AwaitUpload file rest acc] ->
    List.length urls <= List.length rest ->
    let w' := run wi (failing_batch (List.length P) urls) in
    state w' = state (setUploading false wi)
    /\ console w' = console wi ++ [lit "Failed to upload files:"]
    /\ pending w' = P
    /\ transport w'
       = transport wi
         ++ map (fun f => Upload f (uploadPath (clock wi) f))
                (firstn (List.length urls) rest).
Proof.
  induction urls as [|publicUrl urls IH]; intros file rest acc P wi Hp Hlen.
  - simpl. rewrite Hp, nth_error_app_last, remove_nth_app_last. simpl.
    rewrite app_nil_r. repeat split.
  - destruct rest as [|next rest']; [simpl in Hlen; lia|].
    simpl in Hlen. apply le_S_n in Hlen.
    change (run wi (failing_batch (List.length P) (publicUrl :: urls)))
      with (run (step wi (Settle (List.length P) (ResolvedUpload publicUrl)))
                (failing_batch (List.length P) urls)).
    set (wn := step wi (Settle (List.length P) (ResolvedUpload publicUrl))).
    assert (Hwn : wn = upload_next next rest'
                         (acc ++ [{| FileAttachment.name := File.name file;
                                     FileAttachment.url := publicUrl;
                                     FileAttachment.type := File.type file;
                                     FileAttachment.size := File.size file |}])
                         (set_pending P wi)).
    { unfold wn. simpl. rewrite Hp, nth_error_app_last, remove_nth_app_last.
      reflexivity. }
    edestruct (IH next rest') with (P := P) (wi := wn)
      as (Hs & Hc & Hpd & Ht).
    { rewrite Hwn. reflexivity. }
    { exact Hlen. }
    cbv zeta. rewrite Hs, Hc, Hpd, Ht, Hwn. simpl.
    rewrite <- app_assoc. repeat split.
Qed.

(** C9 - Upload failure atomicity.  In a batch where the uploads of the
    first files succeed and the next one fails, the failure is logged and
    the component ends in the state it had before the batch, with the
    busy flag off: the attachment stage is unchanged (neither the failed
    file nor the files uploaded before it appear), no promise is left
    waiting, and every file was handed to the storage at most once. *)
Theorem upload_failure_atomic (w : World) (files : list File.t)
  (urls : list jsstring) :
  List.length urls < List.length files ->
  let w' := run (handleFileUpload files w)
                (failing_batch (List.length (pending w)) urls) in
  attachments (state w') = attachments (state w)
  /\ uploading (state w') = false
  /\ state w' = state (setUploading false w)
  /\ console w' = console w ++ [lit "Failed to upload files:"]
  /\ pending w' = pending w
  /\ transport w'
     = transport w
       ++ map (fun f => Upload f (uploadPath (clock w) f))
              (firstn (S (List.length urls)) files).
Proof.
  intros Hlen. destruct files as [|file rest]; [simpl in Hlen; lia|].
  simpl in Hlen.
  destruct (upload_loop_fails urls file rest [] (pending w)
              (handleFileUpload (file :: rest) w)) as (Hs & Hc & Hpd & Ht).
  { reflexivity. }
  { lia. }
  cbv zeta. rewrite Hs, Hc, Hpd, Ht. simpl.
  rewrite <- app_assoc. repeat split.
Qed.

Lemma upload_failure_atomic_witness :
  List.length [lit "https://cdn/a.png"]
  < List.length [Sample.photo; Sample.notes]
  /\ attachments
       (state (run (handleFileUpload [Sample.photo; Sample.notes]
                                     Sample.live)
                   (failing_batch (List.length (pending Sample.live))
                                  [lit "https://cdn/a.png"])))
     = attachments (state Sample.live).
Proof.
  split; [simpl; lia|].
  apply (upload_failure_atomic Sample.live [Sample.photo; Sample.notes]
           [lit "https://cdn/a.png"]).
  simpl; lia.
Defined.

(** ** Timers *)

Section TimerFacts.

Variable t : Z.

Lemma pop_due_split (ts : list Timer) :
  forall tm rest,
    pop_due t ts = Some (tm, rest) ->
    (due tm <= t)%Z
    /\ exists l1 l2, ts = l1 ++ tm :: l2 /\ rest = l1 ++ l2.
Proof.
  induction ts as [|a ts IH]; simpl; intros tm rest H; [discriminate|].
  destruct (pop_due t ts) as [[best rest']|] eqn:E.
  - destruct ((due a <=? t)%Z && negb (fires_before best a)) eqn:C;
      inversion H; subst; clear H.
    + apply andb_true_iff in C as [C _]. apply Z.leb_le in C.
      split; [exact C|]. exists []. eexists. split; reflexivity.
    + destruct (IH tm rest' eq_refl) as (Hd & l1 & l2 & -> & ->).
      split; [exact Hd|]. now exists (a :: l1), l2.
  - destruct (due a <=? t)%Z eqn:C; inversion H; subst; clear H.
    apply Z.leb_le in C. split; [exact C|].
    exists []. eexists. split; reflexivity.
Qed.

Lemma pop_due_none (ts : list Timer) :
  pop_due t ts = None -> forall x, In x ts -> (t < due x)%Z.
Proof.
  induction ts as [|a ts IH]; simpl; intros H x Hx; [contradiction|].
  destruct (pop_due t ts) as [[best rest']|] eqn:E.
  - destruct ((due a <=? t)%Z && negb (fires_before best a)); discriminate.
  - destruct (due a <=? t)%Z eqn:C; [discriminate|].
    apply Z.leb_gt in C. destruct Hx as [<-|Hx]; auto.
Qed.

Lemma fires_before_false (a b : Timer) :
  fires_before a b = false -> (due b <= due a)%Z.
Proof.
  unfold fires_before. intros H. apply orb_false_iff in H as [H _].
  apply Z.ltb_ge in H. exact H.
Qed.

Lemma fires_before_true (a b : Timer) :
  fires_before a b = true -> (due a <= due b)%Z.
Proof.
  unfold fires_before. intros H. apply orb_true_iff in H as [H|H].
  - apply Z.ltb_lt in H. lia.
  - apply andb_true_iff in H as [H _]. apply Z.eqb_eq in H. lia.
Qed.

(** The timer that fires is one with the earliest due time. *)
Lemma pop_due_min (ts : list Timer) :
  forall tm rest,
    pop_due t ts = Some (tm, rest) ->
    forall x, In x ts -> (due x <= t)%Z -> (due tm <= due x)%Z.
Proof.
  induction ts as [|a ts IH]; simpl; intros tm rest H x Hx Hd;
    [contradiction|].
  destruct (pop_due t ts) as [[best rest']|] eqn:E.
  - destruct ((due a <=? t)%Z && negb (fires_before best a)) eqn:C;
      inversion H; subst; clear H.
    + apply andb_true_iff in C as [_ C]. apply negb_true_iff in C.
      apply fires_before_false in C.
      destruct Hx as [<-|Hx]; [lia|].
      specialize (IH best rest' eq_refl x Hx Hd). lia.
    + destruct Hx as [<-|Hx]; [|now apply (IH tm rest' eq_refl)].
      apply andb_false_iff in C as [C|C].
      * apply Z.leb_gt in C. lia.
      * apply negb_false_iff in C. now apply fires_before_true.
  - destruct (due a <=? t)%Z eqn:C; inversion H; subst; clear H.
    destruct Hx as [<-|Hx]; [lia|].
    pose proof (pop_due_none _ E x Hx). lia.
Qed.

End TimerFacts.

(** [sendTypingIndicator] makes at most one call and touches nothing else. *)
Lemma sendTypingIndicator_cases (u : option User.t) (b : bool) (w : World) :
  sendTypingIndicator u b w = w
  \/ exists c, sendTypingIndicator u b w = call c w.
Proof.
  unfold sendTypingIndicator.
  destruct (channelRef w); [|now left].
  destruct u as [usr|]; [|now left].
  destruct (truthy_str (User.id usr)); [right; eauto|now left].
Qed.

Lemma fire_timers (tm : Timer) (rest : list Timer) (w : World) :
  timers (fire tm rest w) = rest.
Proof.
  unfold fire, run_callback. destruct (callback tm) as [u|n]; simpl; auto.
  match goal with
  | |- context [sendTypingIndicator ?u ?b ?x] =>
      destruct (sendTypingIndicator_cases u b x) as [->|[c ->]]
  end; reflexivity.
Qed.

(** Given fuel for every pending timer, no timer that is due remains. *)
Lemma run_timers_exhausts (t : Z) (n : nat) :
  forall w, List.length (timers w) <= n ->
            pop_due t (timers (run_timers n t w)) = None.
Proof.
  induction n as [|n IH]; intros w Hn; simpl.
  - destruct (timers w); [reflexivity|simpl in Hn; lia].
  - destruct (pop_due t (timers w)) as [[tm rest]|] eqn:E; [|exact E].
    apply IH. rewrite fire_timers.
    destruct (pop_due_split _ _ _ _ E) as (_ & l1 & l2 & Hts & ->).
    rewrite Hts in Hn. rewrite length_app in *. simpl in Hn. lia.
Qed.

(** ** Typing indicators: facts about the displayed list *)

Lemma str_eqb_sym (a b : jsstring) : str_eqb a b = str_eqb b a.
Proof.
  destruct (str_eqb a b) eqn:E.
  - apply str_eqb_eq in E. subst. now rewrite str_eqb_refl.
  - symmetry. apply str_eqb_neq. apply str_eqb_neq in E. congruence.
Qed.

Lemma includes_filter_out (l : list jsstring) (x : jsstring) :
  includes (filter (fun name => negb (str_eqb name x)) l) x = false.
Proof.
  unfold includes. induction l as [|a l IH]; simpl; auto.
  destruct (str_eqb a x) eqn:E; simpl; auto.
  now rewrite str_eqb_sym, E.
Qed.

Lemma includes_filter_absent (p : jsstring -> bool) (l : list jsstring)
  (x : jsstring) :
  includes l x = false -> includes (filter p l) x = false.
Proof.
  unfold includes. induction l as [|a l IH]; simpl; auto.
  intros H. apply orb_false_iff in H as [Ha Hl].
  destruct (p a); simpl; auto. now rewrite Ha, IH.
Qed.

Lemma includes_app_self (l : list jsstring) (x : jsstring) :
  includes (l ++ [x]) x = true.
Proof.
  unfold includes. rewrite existsb_app. simpl.
  now rewrite str_eqb_refl, orb_true_r.
Qed.

(** While time passes, a name whose expiry is pending and due, or which
    is not displayed, ends up not displayed. *)
Lemma expiry_preserved (t : Z) (name : jsstring) (n : nat) :
  forall w,
    (exists tm, In tm (timers w) /\ (due tm <= t)%Z
                /\ callback tm = TypingExpire name)
    \/ includes (typingUsers (state w)) name = false ->
    let w' := run_timers n t w in
    (exists tm, In tm (timers w') /\ (due tm <= t)%Z
                /\ callback tm = TypingExpire name)
    \/ includes (typingUsers (state w')) name = false.
Proof.
  induction n as [|n IH]; intros w H; simpl; [exact H|].
  destruct (pop_due t (timers w)) as [[tm rest]|] eqn:E; [|exact H].
  apply IH.
  destruct (pop_due_split _ _ _ _ E) as (_ & l1 & l2 & Hts & Hrest).
  rewrite fire_timers.
  assert (Hstate :
    typingUsers (state (fire tm rest w))
    = match callback tm with
      | TypingStop _ => typingUsers (state w)
      | TypingExpire userName =>
          filter (fun nm => negb (str_eqb nm userName))
                 (typingUsers (state w))
      end).
  { unfold fire, run_callback. destruct (callback tm) as [u|nm]; simpl; auto.
    match goal with
    | |- context [sendTypingIndicator ?u ?b ?x] =>
        destruct (sendTypingIndicator_cases u b x) as [->|[c ->]]
    end; reflexivity. }
  destruct H as [(x & Hin & Hdue & Hcb)|Habs].
  - rewrite Hts in Hin. apply in_app_or in Hin as [Hin|[<-|Hin]].
    + left. exists x. rewrite Hrest. auto using in_or_app.
    + right. rewrite Hstate, Hcb. apply includes_filter_out.
    + left. exists x. rewrite Hrest. auto using in_or_app.
  - right. rewrite Hstate.
    destruct (callback tm); auto using includes_filter_absent.
Qed.

(** C8 - Typing auto-expiry.  A [typing] event from another participant
    that reports typing adds their display name to the typing list if it
    is absent and arms a timer due 3000 ms later; once that much time has
    passed with no other event, the name is no longer displayed, though
    no stop event arrived.  A [typing] event that reports the end of
    typing removes the name at once and arms nothing. *)
Theorem typing_auto_expiry (u : User.t) (m : RealtimeMessage.t)
  (w : World) :
  RealtimeMessage.type m = lit "typing" ->
  RealtimeMessage.userId m <> User.id u ->
  let userName :=
    or_str (meta_displayName (RealtimeMessage.metadata m))
           (lit "Someone") in
  let w1 := onMessage u m w in
  (Data.isTyping (RealtimeMessage.data m) = true ->
     typingUsers (state w1)
     = (if includes (typingUsers (state w)) userName
        then typingUsers (state w)
        else typingUsers (state w) ++ [userName])
     /\ includes (typingUsers (state w1)) userName = true
     /\ timers w1
        = timers w ++ [{| tid := nextTimer w; due := (clock w + 3000)%Z;
                          callback := TypingExpire userName |}]
     /\ forall t : Z,
          (clock w + 3000 <= t)%Z ->
          includes (typingUsers (state (advance_to t w1))) userName = false)
  /\ (Data.isTyping (RealtimeMessage.data m) = false ->
        typingUsers (state w1)
        = filter (fun name => negb (str_eqb name userName))
                 (typingUsers (state w))
        /\ includes (typingUsers (state w1)) userName = false
        /\ timers w1 = timers w).
Proof.
  intros Hty Hid userName w1.
  apply str_eqb_neq in Hid.
  assert (Hw1 : w1 = onMessage u m w) by reflexivity.
  unfold onMessage in Hw1. rewrite Hty, Hid in Hw1. simpl in Hw1.
  fold userName in Hw1.
  split; intros Hit; rewrite Hit in Hw1.
  - assert (Hus : typingUsers (state w1)
                  = if includes (typingUsers (state w)) userName
                    then typingUsers (state w)
                    else typingUsers (state w) ++ [userName]).
    { rewrite Hw1. reflexivity. }
    assert (Htm : timers w1
                  = timers w ++ [{| tid := nextTimer w;
                                    due := (clock w + 3000)%Z;
                                    callback := TypingExpire userName |}]).
    { rewrite Hw1. reflexivity. }
    split; [exact Hus|]. split.
    { rewrite Hus.
      destruct (includes (typingUsers (state w)) userName) eqn:E; auto.
      apply includes_app_self. }
    split; [exact Htm|].
    intros t Ht. unfold advance_to. simpl.
    pose proof (run_timers_exhausts t (List.length (timers w1)) w1
                  (le_n _)) as Hnone.
    assert (Hpre :
      (exists tm, In tm (timers w1) /\ (due tm <= t)%Z
                  /\ callback tm = TypingExpire userName)
      \/ includes (typingUsers (state w1)) userName = false).
    { left.
      exists {| tid := nextTimer w; due := (clock w + 3000)%Z;
                callback := TypingExpire userName |}.
      split; [|split; [exact Ht|reflexivity]].
      rewrite Htm. apply in_or_app. right. left. reflexivity. }
    destruct (expiry_preserved t userName (List.length (timers w1)) w1 Hpre)
      as [(x & Hin & Hdue & _)|Habs]; [|exact Habs].
    pose proof (pop_due_none _ _ Hnone x Hin). lia.
  - split; [rewrite Hw1; reflexivity|]. split.
    + rewrite Hw1. simpl. apply includes_filter_out.
    + rewrite Hw1. reflexivity.
Qed.

Lemma typing_auto_expiry_witness :
  let m := Sample.from_bob "t1" "typing" "" true 0 in
  RealtimeMessage.type m = lit "typing"
  /\ RealtimeMessage.userId m <> User.id Sample.alice
  /\ typingUsers (state (onMessage Sample.alice m Sample.live))
     = [lit "Bob"]
  /\ includes
       (typingUsers
          (state (advance_to 3000 (onMessage Sample.alice m Sample.live))))
       (lit "Bob") = false.
Proof.
  intros m.
  assert (Hne : RealtimeMessage.userId m <> User.id Sample.alice)
    by (vm_compute; discriminate).
  split; [reflexivity|]. split; [exact Hne|].
  destruct (typing_auto_expiry Sample.alice m Sample.live eq_refl Hne)
    as [Hstart _].
  destruct (Hstart eq_refl) as (Hus & _ & _ & Hexp).
  split; [exact Hus|].
  apply (Hexp 3000%Z). vm_compute. discriminate.
Defined.

(** ** Date grouping *)








(** ** Room switch *)

(** The continuation of the backlog fetch never looks at the room it
    was issued for: whatever the active room, the result becomes the
    transcript. *)
Lemma backlog_result_unchecked (s : Session)
  (recent : list RealtimeMessage.t) (w : World) :
  messages (state (setupRealtime_loaded s (Some recent) w))
  = map (toMessage (s_user s)) recent.
Proof. reflexivity. Qed.

(** C3 - Room switch isolation does not hold.  The backlog fetch of
    [general] is in flight when the parent selects [random]; the effects
    unsubscribe, open [channel-random] and clear the transcript.  When the
    backlog of [general] then arrives, its continuation sets it as the
    transcript, although the active room is [random]; it even replaces
    the backlog of [random] if that one arrived first. *)
Theorem room_switch_stale_backlog :
  let late := Sample.from_bob "g1" "chat" "hello general" false 5 in
  let own := Sample.from_bob "r1" "chat" "hello random" false 7 in
  let switched := step Sample.subscribed
                       (SelectRoom (Some (lit "random")) (Some [])) in
  let w := step switched (Settle 0 (ResolvedMessages [late])) in
  let w' := run switched [Settle 1 Resolved;
                          Settle 1 (ResolvedMessages [own]);
                          Settle 0 (ResolvedMessages [late])] in
  pending Sample.subscribed = [AwaitGetMessages Sample.general_session]
  /\ messages (state switched) = []
  /\ channelId w = Some (lit "random")
  /\ channelRef w = Some (lit "channel-random")
  /\ messages (state w) = [toMessage Sample.alice late]
  /\ channelRef w' = Some (lit "channel-random")
  /\ messages (state w') = [toMessage Sample.alice late].
Proof.
  vm_compute. repeat split.
Qed.

(** ** Typing debouncer, sender side *)

Lemma filter_is_stop_remove (l1 l2 : list Timer) (tm : Timer) :
  is_stop tm = false ->
  filter is_stop (l1 ++ tm :: l2) = filter is_stop (l1 ++ l2).
Proof.
  intros H. rewrite !filter_app. simpl. now rewrite H.
Qed.

(** Firing a timer that is not the stop timer publishes nothing and
    leaves the refs and the user alone. *)
Lemma fire_quiet (tm : Timer) (rest : list Timer) (w : World) :
  is_stop tm = false ->
  transport (fire tm rest w) = transport w
  /\ typingTimeoutRef (fire tm rest w) = typingTimeoutRef w
  /\ channelRef (fire tm rest w) = channelRef w
  /\ user (state (fire tm rest w)) = user (state w)
  /\ clock (fire tm rest w) = Z.max (clock w) (due tm).
Proof.
  unfold is_stop, fire, run_callback.
  destruct (callback tm); [discriminate|].
  intros _. simpl. repeat split.
Qed.

(** While only such timers are due, the passing of time publishes
    nothing and keeps the stop timer pending. *)
Lemma run_timers_quiet (t : Z) (n : nat) :
  forall w,
    (forall tm, In tm (timers w) -> is_stop tm = true -> (t < due tm)%Z) ->
    let w' := run_timers n t w in
    transport w' = transport w
    /\ typingTimeoutRef w' = typingTimeoutRef w
    /\ channelRef w' = channelRef w
    /\ user (state w') = user (state w)
    /\ filter is_stop (timers w') = filter is_stop (timers w)
    /\ (clock w' <= Z.max (clock w) t)%Z.
Proof.
  induction n as [|n IH]; intros w Hq; simpl.
  - repeat split. lia.
  - destruct (pop_due t (timers w)) as [[tm rest]|] eqn:E;
      [|repeat split; lia].
    destruct (pop_due_split _ _ _ _ E) as (Hd & l1 & l2 & Hts & Hrest).
    assert (Hns : is_stop tm = false).
    { destruct (is_stop tm) eqn:Es; [|reflexivity].
      assert (Hin : In tm (timers w))
        by (rewrite Hts; apply in_or_app; right; left; reflexivity).
      specialize (Hq tm Hin Es). lia. }
    destruct (fire_quiet tm rest w Hns) as (Ht & Hr & Hc & Hu & Hk).
    destruct (IH (fire tm rest w)) as (Ht' & Hr' & Hc' & Hu' & Hf' & Hk').
    { rewrite fire_timers. intros x Hx. apply Hq.
      rewrite Hts. rewrite Hrest in Hx.
      apply in_app_or in Hx as [Hx|Hx]; apply in_or_app; auto.
      right. right. exact Hx. }
    rewrite Ht', Hr', Hc', Hu', Hf', Ht, Hr, Hc, Hu, fire_timers.
    repeat split.
    + rewrite Hts, Hrest. symmetry. now apply filter_is_stop_remove.
    + rewrite Hk in Hk'. lia.
Qed.

Lemma advance_quiet (t : Z) (w : World) :
  (forall tm, In tm (timers w) -> is_stop tm = true -> (t < due tm)%Z) ->
  (clock w <= t)%Z ->
  transport (advance_to t w) = transport w
  /\ typingTimeoutRef (advance_to t w) = typingTimeoutRef w
  /\ channelRef (advance_to t w) = channelRef w
  /\ user (state (advance_to t w)) = user (state w)
  /\ filter is_stop (timers (advance_to t w)) = filter is_stop (timers w)
  /\ clock (advance_to t w) = t.
Proof.
  intros Hq Hc. unfold advance_to. simpl.
  destruct (run_timers_quiet t (List.length (timers w)) w Hq)
    as (Ht & Hr & Hch & Hu & Hf & Hk).
  repeat split; auto. lia.
Qed.

Lemma filter_is_stop_clear (h : nat) (ts : list Timer) (s : Timer) :
  filter is_stop ts = [s] -> tid s = h ->
  filter is_stop (filter (fun tm => negb (Nat.eqb (tid tm) h)) ts) = [].
Proof.
  intros Hf Hh.
  assert (Hcomm : forall l,
    filter is_stop (filter (fun tm => negb (Nat.eqb (tid tm) h)) l)
    = filter (fun tm => negb (Nat.eqb (tid tm) h)) (filter is_stop l)).
  { induction l as [|a l IH]; simpl; auto.
    destruct (negb (tid a =? h)) eqn:E1, (is_stop a) eqn:E2; simpl;
      rewrite ?E1, ?E2, IH; reflexivity. }
  rewrite Hcomm, Hf. simpl. now rewrite Hh, Nat.eqb_refl.
Qed.

(** The first keystroke of a burst: no stop timer is armed. *)
Lemma key_first (u : User.t) (room : jsstring) (v : jsstring) (w : World) :
  user (state w) = Some u ->
  truthy_str (User.id u) = true ->
  channelRef w = Some room ->
  typingTimeoutRef w = None ->
  filter is_stop (timers w) = [] ->
  burst_inv u room (clock w)
    (transport w ++ if truthy_str (trim v)
                    then [typing_signal room u true (clock w)] else [])
    (handleMessageChange v w).
Proof.
  intros Hu Hid Hch Hr Hf. unfold handleMessageChange, burst_inv.
  simpl. rewrite Hr, Hu. simpl. rewrite andb_true_r.
  destruct (truthy_str (trim v)) eqn:Ev.
  - unfold sendTypingIndicator. simpl. rewrite Hch, Hid. simpl.
    rewrite Hr. simpl. repeat split; auto.
    exists (nextTimer w). split; [reflexivity|].
    rewrite filter_app, Hf. reflexivity.
  - simpl. rewrite Hr. simpl. rewrite app_nil_r. repeat split; auto.
    exists (nextTimer w). split; [reflexivity|].
    rewrite filter_app, Hf. reflexivity.
Qed.

(** A keystroke while the stop timer is armed: nothing is published, the
    timer is replaced by one due 1000 ms from now. *)
Lemma key_armed (u : User.t) (room : jsstring) (v : jsstring) (h : nat)
  (s : Timer) (w : World) :
  user (state w) = Some u ->
  channelRef w = Some room ->
  typingTimeoutRef w = Some h ->
  filter is_stop (timers w) = [s] ->
  tid s = h ->
  burst_inv u room (clock w) (transport w) (handleMessageChange v w).
Proof.
  intros Hu Hch Hr Hf Hh. unfold handleMessageChange, burst_inv.
  simpl. rewrite Hr, Hu. simpl. rewrite andb_false_r. simpl.
  rewrite Hr. simpl. repeat split; auto.
  exists (nextTimer w). split; [reflexivity|].
  rewrite filter_app, (filter_is_stop_clear h (timers w) s Hf Hh).
  reflexivity.
Qed.

(** A later keystroke of the burst, less than 1000 ms after the last. *)
Lemma key_next (u : User.t) (room : jsstring) (t t' : Z)
  (X : list TransportCall) (v : jsstring) (w : World) :
  burst_inv u room t X w ->
  (t <= t' < t + 1000)%Z ->
  burst_inv u room t' X (handleMessageChange v (advance_to t' w)).
Proof.
  intros (Hk & Hu & Hch & Ht & h & Hr & Hf) Hgap.
  destruct (advance_quiet t' w) as (Ht1 & Hr1 & Hch1 & Hu1 & Hf1 & Hk1).
  { intros tm Hin Hs.
    assert (Hin' : In tm (filter is_stop (timers w)))
      by (apply filter_In; auto).
    rewrite Hf in Hin'. destruct Hin' as [<-|[]]. simpl. lia. }
  { lia. }
  rewrite <- Hk1 at 1. rewrite <- Ht, <- Ht1.
  apply (key_armed u room v h
           {| tid := h; due := (t + 1000)%Z;
              callback := TypingStop (Some u) |}); try congruence.
  reflexivity.
Qed.

Lemma burst_rest (u : User.t) (room : jsstring) (X : list TransportCall)
  (rest : list (Z * jsstring)) :
  forall t w,
    burst_inv u room t X w ->
    within_burst t rest ->
    burst_inv u room (last_time t rest) X (run w (burst_events rest)).
Proof.
  induction rest as [|[t' v] rest IH]; intros t w Hinv Hb; simpl.
  - exact Hinv.
  - destruct Hb as [Hgap Hb]. simpl in Hgap, Hb.
    apply (IH t'); [|exact Hb].
    now apply (key_next u room t t' X v w).
Qed.

Lemma filter_singleton_split (l1 l2 : list Timer) (s tm : Timer) :
  filter is_stop (l1 ++ tm :: l2) = [s] ->
  is_stop tm = true ->
  tm = s /\ filter is_stop (l1 ++ l2) = [].
Proof.
  rewrite !filter_app. simpl. intros H Hs. rewrite Hs in H.
  destruct (filter is_stop l1) as [|a l1'].
  - simpl in H. inversion H as [[H1 H2]]. simpl. now rewrite H2.
  - simpl in H. inversion H as [[H1 H2]].
    destruct l1'; discriminate.
Qed.

(** Once the stop timer is due it fires at its due time, publishing the
    stop signal, and nothing else is published. *)
Lemma stop_fires (u : User.t) (room : jsstring) (T : Z) (s : Timer)
  (n : nat) :
  forall w,
    List.length (timers w) <= n ->
    filter is_stop (timers w) = [s] ->
    callback s = TypingStop (Some u) ->
    truthy_str (User.id u) = true ->
    channelRef w = Some room ->
    (clock w <= due s)%Z ->
    (due s <= T)%Z ->
    transport (run_timers n T w)
    = transport w ++ [typing_signal room u false (due s)].
Proof.
  induction n as [|n IH]; intros w Hn Hf Hcb Hid Hch Hk HT.
  - destruct (timers w); [discriminate|simpl in Hn; lia].
  - assert (Hin : In s (timers w)).
    { assert (H : In s (filter is_stop (timers w)))
        by (rewrite Hf; left; reflexivity).
      now apply filter_In in H. }
    simpl.
    destruct (pop_due T (timers w)) as [[tm rest]|] eqn:E.
    2:{ pose proof (pop_due_none _ _ E s Hin). lia. }
    destruct (pop_due_split _ _ _ _ E) as (Hd & l1 & l2 & Hts & Hrest).
    pose proof (pop_due_min _ _ _ _ E s Hin HT) as Hmin.
    assert (Hlen : List.length rest <= n).
    { rewrite Hts in Hn. rewrite Hrest. rewrite length_app in *.
      simpl in Hn. lia. }
    destruct (is_stop tm) eqn:Es.
    + rewrite Hts in Hf.
      destruct (filter_singleton_split l1 l2 s tm Hf Es) as [-> Hnone].
      rewrite <- Hrest in Hnone.
      destruct (run_timers_quiet T n (fire s rest w)) as (Ht & _).
      { rewrite fire_timers. intros x Hx Hsx.
        assert (H : In x (filter is_stop rest)) by (apply filter_In; auto).
        rewrite Hnone in H. destruct H. }
      rewrite Ht. unfold fire, run_callback. rewrite Hcb.
      unfold sendTypingIndicator. simpl. rewrite Hch, Hid. simpl.
      unfold typing_signal. now rewrite Z.max_r by lia.
    + destruct (fire_quiet tm rest w Es) as (Ht & _ & Hc & _ & Hk').
      rewrite (IH (fire tm rest w)); try assumption.
      * now rewrite Ht.
      * now rewrite fire_timers.
      * rewrite fire_timers, Hrest. rewrite Hts in Hf.
        now rewrite <- (filter_is_stop_remove l1 l2 tm Es).
      * now rewrite Hc.
      * rewrite Hk'. lia.
Qed.

(** C7 - Typing debounce, as the code has it.  With a live channel, a
    signed-in user and no stop timer armed, a burst of keystrokes less
    than 1000 ms apart publishes [typing:start] once, at the first
    keystroke, if that keystroke leaves text other than white space in the
    composer, and not at all otherwise; it publishes [typing:stop] exactly
    once, 1000 ms after the last keystroke; it publishes nothing else. *)
Theorem typing_debounce (w : World) (u : User.t) (room : jsstring)
  (t1 : Z) (v1 : jsstring) (rest : list (Z * jsstring)) (T : Z) :
  user (state w) = Some u ->
  truthy_str (User.id u) = true ->
  channelRef w = Some room ->
  typingTimeoutRef w = None ->
  filter is_stop (timers w) = [] ->
  (clock w <= t1)%Z ->
  within_burst t1 rest ->
  (last_time t1 rest + 1000 <= T)%Z ->
  transport (run w (burst_events ((t1, v1) :: rest) ++ [Tick T]))
  = transport w
    ++ (if truthy_str (trim v1) then [typing_signal room u true t1] else [])
    ++ [typing_signal room u false (last_time t1 rest + 1000)].
Proof.
  intros Hu Hid Hch Hr Hf Hk Hb HT.
  assert (Hrun : run w (burst_events ((t1, v1) :: rest) ++ [Tick T])
                 = advance_to T (run (handleMessageChange v1 (advance_to t1 w))
                                     (burst_events rest))).
  { unfold run. rewrite fold_left_app. reflexivity. }
  rewrite Hrun. clear Hrun.
  destruct (advance_quiet t1 w) as (Ht1 & Hr1 & Hch1 & Hu1 & Hf1 & Hk1).
  { intros tm Hin Hs.
    assert (H : In tm (filter is_stop (timers w))) by (apply filter_In; auto).
    rewrite Hf in H. destruct H. }
  { exact Hk. }
  assert (Hinv : burst_inv u room t1
                   (transport w
                    ++ if truthy_str (trim v1)
                       then [typing_signal room u true t1] else [])
                   (handleMessageChange v1 (advance_to t1 w))).
  { pose proof (key_first u room v1 (advance_to t1 w)) as H.
    rewrite Hk1, Ht1 in H. apply H; congruence. }
  pose proof (burst_rest u room _ rest t1 _ Hinv Hb) as Hend.
  remember (run (handleMessageChange v1 (advance_to t1 w))
                (burst_events rest)) as wl eqn:Ewl.
  clear Ewl Hinv.
  destruct Hend as (Hkl & Hul & Hchl & Htl & h & Hrl & Hfl).
  unfold advance_to. simpl.
  rewrite (stop_fires u room T
             {| tid := h; due := (last_time t1 rest + 1000)%Z;
                callback := TypingStop (Some u) |}
             (List.length (timers wl)) wl); auto.
  - rewrite Htl. simpl. now rewrite <- app_assoc.
  - simpl. lia.
Qed.

Lemma typing_debounce_witness :
  let keys := [(200%Z, lit "he"); (900%Z, lit "hey")] in
  (within_burst 10 keys /\ (last_time 10 keys + 1000 <= 2500)%Z)
  /\ transport (run Sample.live
                    (burst_events ((10%Z, lit "h") :: keys) ++ [Tick 2500]))
     = transport Sample.live
       ++ [typing_signal (lit "channel-general") Sample.alice true 10]
       ++ [typing_signal (lit "channel-general") Sample.alice false 1900].
Proof.
  intros keys.
  assert (Hb : within_burst 10 keys) by (simpl; lia).
  assert (HT : (last_time 10 keys + 1000 <= 2500)%Z) by (simpl; lia).
  split; [split; assumption|].
  apply (typing_debounce Sample.live Sample.alice (lit "channel-general")
           10 (lit "h") keys 2500);
    first [reflexivity | assumption | vm_compute; discriminate].
Defined.

(** C7 as stated fails: in a burst whose first keystroke leaves
    only a space in the composer no [typing:start] is published at all,
    not even when the next keystroke adds a letter. *)
Lemma typing_debounce_counterexample :
  let keys := [(200%Z, lit " h")] in
  let w := run Sample.live
               (burst_events ((10%Z, lit " ") :: keys) ++ [Tick 2500]) in
  within_burst 10 keys
  /\ typingTimeoutRef Sample.live = None
  /\ channelRef Sample.live = Some (lit "channel-general")
  /\ message (state w) = lit " h"
  /\ count_typing true (transport w) = 0
  /\ count_typing true (transport w) <> 1
  /\ count_typing false (transport w) = 1.
Proof.
  intros keys w.
  split; [simpl; lia|].
  vm_compute. repeat split. discriminate.
Qed.

(* ================================================================== *)
(** * Further properties of the component *)
(* ================================================================== *)

(** ** Live intake *)

Lemma some_id_absent (i : jsstring) (ms : list Message.t) :
  some (fun msg => str_eqb (Message.id msg) i) ms = false ->
  ~ In i (map Message.id ms).
Proof.
  unfold some. induction ms as [|m ms IH]; simpl; [tauto|].
  intros H. apply orb_false_iff in H as [Hm Hr].
  intros [E|Hin]; [|now apply IH].
  apply str_eqb_neq in Hm. congruence.
Qed.

(** X1 - Live intake only appends.  Whatever the transport delivers, the
    transcript held before is a prefix of the transcript after, at most
    one message is added, and none unless the event is a [chat]; the
    composer text, the attachment stage, the unsettled promises and the
    transport log are untouched. *)
Theorem live_intake_extends (u : User.t) (m : RealtimeMessage.t)
  (w : World) :
  exists tail : list Message.t,
    messages (state (onMessage u m w)) = messages (state w) ++ tail
    /\ List.length tail <= 1
    /\ (str_eqb (RealtimeMessage.type m) (lit "chat") = false -> tail = [])
    /\ message (state (onMessage u m w)) = message (state w)
    /\ attachments (state (onMessage u m w)) = attachments (state w)
    /\ pending (onMessage u m w) = pending w
    /\ transport (onMessage u m w) = transport w.
Proof.
  unfold onMessage.
  destruct (str_eqb (RealtimeMessage.type m) (lit "chat")) eqn:Ec.
  - simpl.
    destruct (some _ (messages (state w))).
    + exists []. rewrite app_nil_r. repeat split; auto.
    + exists [toMessage u m]. repeat split; auto; discriminate.
  - exists []. rewrite app_nil_r.
    destruct (str_eqb (RealtimeMessage.type m) (lit "typing"));
      [|repeat split; auto].
    destruct (negb (str_eqb (RealtimeMessage.userId m) (User.id u)));
      [|repeat split; auto].
    destruct (Data.isTyping (RealtimeMessage.data m)); simpl;
      repeat split; auto.
Qed.

(** X2 - Live intake keeps ids distinct.  If no two messages of the
    transcript share an id, the same holds after any live event. *)
Theorem live_intake_keeps_ids_distinct (u : User.t) (m : RealtimeMessage.t)
  (w : World) :
  NoDup (map Message.id (messages (state w))) ->
  NoDup (map Message.id (messages (state (onMessage u m w)))).
Proof.
  intros Hnd. unfold onMessage.
  destruct (str_eqb (RealtimeMessage.type m) (lit "chat")) eqn:Ec.
  - simpl.
    destruct (some _ (messages (state w))) eqn:Es; [exact Hnd|].
    rewrite map_app. simpl.
    apply NoDup_app; [exact Hnd|repeat constructor; simpl; tauto|].
    intros i Hi [<-|[]]. exact (some_id_absent _ _ Es Hi).
  - destruct (str_eqb (RealtimeMessage.type m) (lit "typing"));
      [|exact Hnd].
    destruct (negb (str_eqb (RealtimeMessage.userId m) (User.id u)));
      [|exact Hnd].
    destruct (Data.isTyping (RealtimeMessage.data m)); exact Hnd.
Qed.

Lemma live_intake_keeps_ids_distinct_witness :
  let m := Sample.from_bob "m1" "chat" "hi" false 5 in
  let w := onMessage Sample.alice m Sample.live in
  NoDup (map Message.id (messages (state w)))
  /\ NoDup (map Message.id (messages (state (onMessage Sample.alice m w)))).
Proof.
  intros m w.
  assert (H : NoDup (map Message.id (messages (state w))))
    by (repeat constructor; simpl; tauto).
  split; [exact H|].
  exact (live_intake_keeps_ids_distinct Sample.alice m w H).
Defined.

(** X3 - Events of other kinds are ignored.  A delivery whose type is
    neither [chat] nor [typing] leaves the component exactly as it was. *)
Theorem other_kinds_ignored (u : User.t) (m : RealtimeMessage.t)
  (w : World) :
  RealtimeMessage.type m <> lit "chat" ->
  RealtimeMessage.type m <> lit "typing" ->
  onMessage u m w = w.
Proof.
  intros Hc Ht. apply str_eqb_neq in Hc, Ht.
  unfold onMessage. now rewrite Hc, Ht.
Qed.

Lemma other_kinds_ignored_witness :
  let m := Sample.from_bob "p1" "presence" "" false 5 in
  RealtimeMessage.type m <> lit "chat"
  /\ RealtimeMessage.type m <> lit "typing"
  /\ onMessage Sample.alice m Sample.live = Sample.live.
Proof.
  intros m.
  assert (Hc : RealtimeMessage.type m <> lit "chat")
    by (vm_compute; discriminate).
  assert (Ht : RealtimeMessage.type m <> lit "typing")
    by (vm_compute; discriminate).
  split; [exact Hc|]. split; [exact Ht|].
  exact (other_kinds_ignored Sample.alice m Sample.live Hc Ht).
Defined.

(** ** Send precondition *)

Lemma trim_start_nil (s : jsstring) :
  trim_start s = [] <-> forallb is_white_space s = true.
Proof.
  induction s as [|c s IH]; simpl; [tauto|].
  destruct (is_white_space c); simpl; [exact IH|].
  split; discriminate.
Qed.

Lemma trim_start_suffix (s : jsstring) :
  exists pre, s = pre ++ trim_start s /\ forallb is_white_space pre = true.
Proof.
  induction s as [|c s (pre & Hs & Hp)]; simpl.
  - now exists [].
  - destruct (is_white_space c) eqn:E.
    + exists (c :: pre). simpl. rewrite E, Hp. split; [|reflexivity].
      now f_equal.
    + now exists [].
Qed.

Lemma trim_start_head (s : jsstring) (c : N) (r : jsstring) :
  trim_start s = c :: r -> is_white_space c = false.
Proof.
  induction s as [|x s IH]; simpl; [discriminate|].
  destruct (is_white_space x) eqn:E; [exact IH|].
  intros H. inversion H. subst. exact E.
Qed.

Lemma forallb_rev {A} (p : A -> bool) (l : list A) :
  forallb p (rev l) = forallb p l.
Proof.
  induction l as [|a l IH]; simpl; auto.
  rewrite forallb_app, IH. simpl. rewrite andb_true_r. apply andb_comm.
Qed.

(** [trim] leaves nothing exactly when every code unit is white space. *)
Lemma trim_blank_iff (s : jsstring) :
  truthy_str (trim s) = false <-> forallb is_white_space s = true.
Proof.
  unfold trim. split.
  - intros H.
    destruct (rev (trim_start (rev (trim_start s)))) as [|c r] eqn:E;
      [|discriminate].
    apply (f_equal (@rev N)) in E. rewrite rev_involutive in E. simpl in E.
    apply trim_start_nil in E. rewrite forallb_rev in E.
    destruct (trim_start s) as [|c r] eqn:Et.
    + now apply trim_start_nil.
    + apply trim_start_head in Et. simpl in E. rewrite Et in E. discriminate.
  - intros H. apply trim_start_nil in H. rewrite H. reflexivity.
Qed.

(** X4 - Nothing is sent without content, user or channel.  A send whose
    text consists of white space only while the stage is empty, or that
    happens while no user is signed in or no channel is open, changes
    nothing: no publication, no promise, no change of state. *)
Theorem send_requires_content (w : World) :
  (forallb is_white_space (message (state w)) = true
   /\ attachments (state w) = [])
  \/ user (state w) = None
  \/ channelRef w = None ->
  handleSendMessage w = w.
Proof.
  unfold handleSendMessage. intros [[Hb Ha]|[Hu|Hc]].
  - apply trim_blank_iff in Hb. rewrite Hb, Ha. simpl.
    destruct (user (state w)); [|reflexivity].
    destruct (channelRef w); reflexivity.
  - now rewrite Hu.
  - rewrite Hc. destruct (user (state w)); reflexivity.
Qed.

Lemma send_requires_content_witness :
  let w := step Sample.live (Change (lit "   ")) in
  (forallb is_white_space (message (state w)) = true
   /\ attachments (state w) = [])
  /\ handleSendMessage w = w.
Proof.
  intros w.
  assert (H : forallb is_white_space (message (state w)) = true
              /\ attachments (state w) = []) by (split; reflexivity).
  split; [exact H|].
  exact (send_requires_content w (or_introl H)).
Defined.

(** X5 - A confirmed send clears the composer and adds nothing locally.
    When the publication of a send is confirmed, the text input and the
    stage are emptied and the transcript is left as it is (the message
    appears only when the transport delivers it); [typing:stop] is
    published if a channel is still open, and nothing else. *)
Theorem send_confirmed (w : World) (k : nat) (u : User.t)
  (content : jsstring) (staged : list FileAttachment.t) :
  nth_error (pending w) k = Some (AwaitPublishChat u content staged) ->
  let w' := step w (Settle k Resolved) in
  messages (state w') = messages (state w)
  /\ message (state w') = []
  /\ attachments (state w') = []
  /\ pending w' = remove_nth k (pending w)
  /\ console w' = console w
  /\ transport w'
     = transport w
       ++ match channelRef w with
          | Some room =>
              if truthy_str (User.id u)
              then [typing_signal room u false (clock w)] else []
          | None => []
          end.
Proof.
  intros Hk. simpl. rewrite Hk. simpl.
  unfold sendTypingIndicator. simpl.
  destruct (channelRef w) as [room|]; simpl.
  - destruct (truthy_str (User.id u)); simpl;
      rewrite ?app_nil_r; repeat split.
  - rewrite app_nil_r. repeat split.
Qed.

Lemma send_confirmed_witness :
  let w := handleSendMessage Sample.typed_hello in
  nth_error (pending w) 0
  = Some (AwaitPublishChat Sample.alice (lit "hello") [])
  /\ messages (state (step w (Settle 0 Resolved))) = messages (state w)
  /\ message (state (step w (Settle 0 Resolved))) = [].
Proof.
  intros w. split; [reflexivity|].
  destruct (send_confirmed w 0 Sample.alice (lit "hello") [] eq_refl)
    as (Hm & Hi & _).
  split; [exact Hm|exact Hi].
Defined.

(** ** Attachment stager *)

Lemma filter_index_skip {A} (index : nat) (l : list A) :
  forall from,
    index < from ->
    filter_index (fun i => negb (Nat.eqb i index)) from l = l.
Proof.
  induction l as [|a l IH]; intros from H; simpl; [reflexivity|].
  destruct (Nat.eqb_spec from index); [lia|]. simpl.
  f_equal. apply IH. lia.
Qed.

Lemma filter_index_remove {A} (l : list A) :
  forall from index,
    from <= index ->
    filter_index (fun i => negb (Nat.eqb i index)) from l
    = firstn (index - from) l ++ skipn (S (index - from)) l.
Proof.
  induction l as [|a l IH]; intros from index H; simpl.
  - now rewrite firstn_nil.
  - destruct (Nat.eqb_spec from index) as [->|Hne]; simpl.
    + rewrite Nat.sub_diag. simpl. apply filter_index_skip. lia.
    + destruct (index - from) as [|d] eqn:Ed; [lia|]. simpl.
      f_equal. rewrite (IH (S from) index) by lia.
      replace (index - S from) with d by lia. reflexivity.
Qed.

(** X6 - Removing a staged attachment.  [removeAttachment index] drops
    exactly the entry at that position and keeps the others in order; a
    position past the end of the stage changes nothing. *)
Theorem remove_attachment_at (index : nat) (w : World) :
  attachments (state (removeAttachment index w))
  = firstn index (attachments (state w))
    ++ skipn (S index) (attachments (state w))
  /\ (List.length (attachments (state w)) <= index ->
      attachments (state (removeAttachment index w))
      = attachments (state w))
  /\ (index < List.length (attachments (state w)) ->
      S (List.length (attachments (state (removeAttachment index w))))
      = List.length (attachments (state w))).
Proof.
  assert (H : attachments (state (removeAttachment index w))
              = firstn index (attachments (state w))
                ++ skipn (S index) (attachments (state w))).
  { unfold removeAttachment. simpl.
    rewrite (filter_index_remove (attachments (state w)) 0 index)
      by lia.
    now rewrite Nat.sub_0_r. }
  split; [exact H|]. split; intros Hl; rewrite H.
  - rewrite firstn_all2 by lia. rewrite skipn_all2 by lia.
    apply app_nil_r.
  - rewrite length_app, length_firstn, length_skipn. lia.
Qed.

(** The upload loop from the moment one upload of the batch is awaited,
    when this upload and all later ones succeed. *)
Lemma upload_loop_succeeds (urls : list jsstring) :
  forall (file : File.t) (rest : list File.t)
         (acc : list FileAttachment.t) (P : list Pending) (wi : World),
    pending wi = P ++ [AwaitUpload file rest acc] ->
    List.length urls = S (List.length rest) ->
    let w' := run wi (succeeding_batch (List.length P) urls) in
    state w'
    = state (setUploading false
               (setAttachments
                  (fun prev => prev ++ acc ++ stagedOf (file :: rest) urls)
                  wi))
    /\ console w' = console wi
    /\ pending w' = P
    /\ transport w'
       = transport wi
         ++ map (fun f => Upload f (uploadPath (clock wi) f)) rest.
Proof.
  induction urls as [|publicUrl urls IH]; intros file rest acc P wi Hp Hlen;
    [discriminate|].
  change (run wi (succeeding_batch (List.length P) (publicUrl :: urls)))
    with (run (step wi (Settle (List.length P) (ResolvedUpload publicUrl)))
              (succeeding_batch (List.length P) urls)).
  set (wn := step wi (Settle (List.length P) (ResolvedUpload publicUrl))).
  destruct rest as [|next rest'].
  - destruct urls; [|discriminate]. cbv zeta.
    unfold wn. simpl.
    rewrite Hp, nth_error_app_last, remove_nth_app_last. simpl.
    rewrite app_nil_r. repeat split.
  - assert (Hwn : wn = upload_next next rest'
                         (acc ++ [attachmentOf file publicUrl])
                         (set_pending P wi)).
    { unfold wn. simpl. rewrite Hp, nth_error_app_last, remove_nth_app_last.
      reflexivity. }
    simpl in Hlen. injection Hlen as Hlen.
    edestruct (IH next rest') with (P := P) (wi := wn)
      as (Hs & Hc & Hpd & Ht).
    { rewrite Hwn. reflexivity. }
    { exact Hlen. }
    cbv zeta. rewrite Hs, Hc, Hpd, Ht, Hwn. simpl.
    rewrite <- !app_assoc. repeat split.
Qed.

(** X7 - A fully successful upload batch.  When every upload of a
    non-empty batch succeeds, the stage grows by one entry per file, in
    the order of the files and after the entries already staged; the busy
    flag ends off, nothing is logged, and each file was uploaded once, one
    after the other. *)
Theorem upload_batch_succeeds (w : World) (files : list File.t)
  (urls : list jsstring) :
  files <> [] ->
  List.length urls = List.length files ->
  let w' := run (handleFileUpload files w)
                (succeeding_batch (List.length (pending w)) urls) in
  attachments (state w') = attachments (state w) ++ stagedOf files urls
  /\ List.length (attachments (state w'))
     = List.length (attachments (state w)) + List.length files
  /\ uploading (state w') = false
  /\ console w' = console w
  /\ pending w' = pending w
  /\ transport w'
     = transport w ++ map (fun f => Upload f (uploadPath (clock w) f)) files.
Proof.
  intros Hne Hlen. destruct files as [|file rest]; [contradiction|].
  destruct (upload_loop_succeeds urls file rest [] (pending w)
              (handleFileUpload (file :: rest) w)) as (Hs & Hc & Hpd & Ht).
  { reflexivity. }
  { exact Hlen. }
  assert (Hst : forall fs us, List.length us = List.length fs ->
                              List.length (stagedOf fs us) = List.length fs).
  { induction fs as [|f fs IHf]; intros [|x us] H; simpl in *;
      try discriminate; auto. }
  cbv zeta. rewrite Hs, Hc, Hpd, Ht. simpl.
  rewrite <- app_assoc. repeat split.
  rewrite length_app. simpl. f_equal.
  destruct urls as [|x us]; [discriminate|]. simpl. f_equal.
  apply Hst. simpl in Hlen. now injection Hlen.
Qed.

Lemma upload_batch_succeeds_witness :
  [Sample.photo; Sample.notes] <> []
  /\ map FileAttachment.name
       (attachments
          (state (run (handleFileUpload [Sample.photo; Sample.notes]
                                        Sample.live)
                      (succeeding_batch (List.length (pending Sample.live))
                                        [lit "u1"; lit "u2"]))))
     = [lit "a.png"; lit "b.txt"].
Proof.
  split; [discriminate|].
  rewrite (proj1 (upload_batch_succeeds Sample.live
                    [Sample.photo; Sample.notes] [lit "u1"; lit "u2"]
                    ltac:(discriminate) eq_refl)).
  reflexivity.
Defined.

(** ** Room ids *)

Lemma dash_split_unique (x x' y y' : jsstring) :
  no_dash x = true -> no_dash x' = true ->
  x ++ 45%N :: y = x' ++ 45%N :: y' -> x = x' /\ y = y'.
Proof.
  revert x'. induction x as [|a x IH]; intros [|a' x'] Hx Hx' H;
    simpl in *.
  - inversion H. auto.
  - inversion H. subst. rewrite N.eqb_refl in Hx'. discriminate.
  - inversion H. subst. rewrite N.eqb_refl in Hx. discriminate.
  - apply andb_true_iff in Hx as [_ Hx]. apply andb_true_iff in Hx' as [_ Hx'].
    inversion H. subst. destruct (IH x' Hx Hx' H2) as [-> ->]. auto.
Qed.

(** X8 - Channel rooms and direct-message rooms are kept apart.  A room
    id computed on the channel path never equals one computed on the
    direct-message path, whoever the users are; and two channel room ids
    are equal only for the same channel. *)
Theorem room_ids_separate_paths (c c' : optstr) (u u' : jsstring)
  (d d' : optstr) :
  truthy c = true ->
  (truthy c' = false -> roomId c u d <> roomId c' u' d')
  /\ (truthy c' = true -> roomId c u d = roomId c' u' d' -> c = c').
Proof.
  intros Hc. unfold roomId. rewrite Hc. split; intros Hc'; rewrite Hc'.
  - simpl. discriminate.
  - intros H. apply app_inv_head in H.
    destruct c as [[|x s]|], c' as [[|x' s']|]; try discriminate.
    simpl in H. now rewrite H.
Qed.

Lemma room_ids_separate_paths_witness :
  truthy (Some (lit "general")) = true
  /\ roomId (Some (lit "general")) (lit "u-alice") (Some [])
     <> roomId (Some []) (lit "u-alice") (Some (lit "general")).
Proof.
  split; [reflexivity|].
  exact (proj1 (room_ids_separate_paths (Some (lit "general")) (Some [])
                  (lit "u-alice") (lit "u-alice") (Some [])
                  (Some (lit "general")) eq_refl) eq_refl).
Defined.

(** X9 - A direct-message room id names its two participants.  For user
    ids that do not contain [-], two direct-message room ids are equal
    only if they were computed for the same pair of users, in either
    order. *)
Theorem dm_room_id_injective (c c' : optstr) (A B A' B' : jsstring) :
  truthy c = false -> truthy c' = false ->
  no_dash A = true -> no_dash B = true ->
  no_dash A' = true -> no_dash B' = true ->
  roomId c A (Some B) = roomId c' A' (Some B') ->
  (A = A' /\ B = B') \/ (A = B' /\ B = A').
Proof.
  intros Hc Hc' HA HB HA' HB' H.
  unfold roomId in H. rewrite Hc, Hc', !sort_pair in H.
  apply app_inv_head in H.
  destruct (str_ltb B A), (str_ltb B' A'); simpl in H;
    apply dash_split_unique in H; try assumption;
    destruct H as [-> ->]; auto.
Qed.

Lemma dm_room_id_injective_witness :
  roomId (Some []) (lit "bob") (Some (lit "alice"))
  = roomId (Some []) (lit "alice") (Some (lit "bob"))
  /\ ((lit "bob" = lit "alice" /\ lit "alice" = lit "bob")
      \/ (lit "bob" = lit "bob" /\ lit "alice" = lit "alice")).
Proof.
  assert (H : roomId (Some []) (lit "bob") (Some (lit "alice"))
              = roomId (Some []) (lit "alice") (Some (lit "bob")))
    by reflexivity.
  split; [exact H|].
  exact (dm_room_id_injective (Some []) (Some []) (lit "bob") (lit "alice")
           (lit "alice") (lit "bob") eq_refl eq_refl eq_refl eq_refl
           eq_refl eq_refl H).
Defined.

(** Ids that contain the separator can collide: two different pairs of
    users get the same room. *)
Example dm_room_id_collision :
  roomId None (lit "a-b") (Some (lit "c"))
  = roomId None (lit "a") (Some (lit "b-c")).
Proof. reflexivity. Qed.

(** ** Invariants of every run *)

(** A property that holds after mounting and is kept by every event
    holds after every run. *)
Lemma run_invariant (P : World -> Prop) :
  (forall w e, P w -> P (step w e)) ->
  forall events w, P w -> P (run w events).
Proof.
  intros Hstep. induction events as [|e events IH]; intros w Hw; simpl.
  - exact Hw.
  - apply IH. now apply Hstep.
Qed.

Ltac split_matches :=
  repeat (simpl;
          match goal with
          | |- context [match ?x with _ => _ end] => destruct x
          end);
  simpl; try reflexivity.

Lemma sendTypingIndicator_session (u : option User.t) (b : bool)
  (w : World) :
  session_fields (sendTypingIndicator u b w) = session_fields w.
Proof.
  destruct (sendTypingIndicator_cases u b w) as [->|[c ->]]; reflexivity.
Qed.

Lemma run_timers_session (t : Z) (n : nat) :
  forall w, session_fields (run_timers n t w) = session_fields w.
Proof.
  induction n as [|n IH]; intros w; simpl; [reflexivity|].
  destruct (pop_due t (timers w)) as [[tm rest]|]; [|reflexivity].
  rewrite IH. unfold fire, run_callback.
  destruct (callback tm); [|reflexivity].
  unfold session_fields. simpl.
  match goal with
  | |- context [sendTypingIndicator ?u ?b ?x] =>
      destruct (sendTypingIndicator_cases u b x) as [->|[c ->]]
  end; reflexivity.
Qed.

Lemma onMessage_session (u : User.t) (m : RealtimeMessage.t) (w : World) :
  session_fields (onMessage u m w) = session_fields w.
Proof. unfold onMessage. split_matches. Qed.

Lemma handleMessageChange_session (v : jsstring) (w : World) :
  session_fields (handleMessageChange v w) = session_fields w.
Proof.
  unfold handleMessageChange, sendTypingIndicator. split_matches.
Qed.

Lemma resume_session (p : Pending) (o : Outcome) (w w' : World) :
  resume p o w = Some w' -> session_fields w' = session_fields w.
Proof.
  destruct p, o; simpl; intros H; inversion H; subst; clear H;
    unfold setupRealtime_subscribed, setupRealtime_loaded,
      handleSendMessage_settled, handleFileUpload_settled,
      sendTypingIndicator, upload_next;
    split_matches.
Qed.

(** Events other than a change of user or of room leave the session
    alone. *)
Lemma step_session (w : World) (e : Event) :
  match e with
  | AuthStateChanged _ _ | SelectRoom _ _ => True
  | _ => session_fields (step w e) = session_fields w
  end.
Proof.
  destruct e; simpl; auto.
  - destruct (nth_error (pending w) k) as [p|]; [|reflexivity].
    destruct (resume p o _) as [w'|] eqn:E; [|reflexivity].
    now rewrite (resume_session _ _ _ _ E).
  - destruct (existsb _ _); [apply onMessage_session|reflexivity].
  - apply handleMessageChange_session.
  - unfold handleSendMessage. split_matches.
  - unfold handleFileUpload, upload_next. split_matches.
  - unfold advance_to.
    change (session_fields
              (run_timers (List.length (timers w)) t w) = session_fields w).
    apply run_timers_session.
Qed.

Lemma session_ok_fields (w w' : World) :
  session_fields w' = session_fields w -> session_ok w -> session_ok w'.
Proof.
  unfold session_fields, session_ok. intros H. inversion H as [[H1 H2 H3 H4 H5]].
  now rewrite H1, H2, H3, H4, H5.
Qed.

Lemma deps_eqb_users (a b : option User.t) :
  deps_eqb (user_deps a) (user_deps b) = true ->
  (a = None /\ b = None)
  \/ exists x y, a = Some x /\ b = Some y /\ User.id x = User.id y.
Proof.
  destruct a as [x|], b as [y|]; simpl; try discriminate.
  - intros H. apply andb_true_iff in H as [H _].
    apply str_eqb_eq in H. right. eauto.
  - auto.
Qed.

(** After the cleanup and the body of the realtime effect the session is
    consistent, whatever it was before, as long as the ref held the
    effect's channel. *)
Lemma effect_rerun_ok (w : World) :
  channelRef w = effectChannel w ->
  session_ok (realtime_effect (realtime_cleanup w)).
Proof.
  intros Hce.
  assert (Hnone : channelRef (realtime_cleanup w) = None).
  { unfold realtime_cleanup. destruct (effectChannel w) eqn:E; simpl; auto;
      congruence. }
  assert (Hsame : channelId (realtime_cleanup w) = channelId w
                  /\ dmId (realtime_cleanup w) = dmId w
                  /\ user (state (realtime_cleanup w)) = user (state w)).
  { unfold realtime_cleanup. destruct (effectChannel w); simpl; auto. }
  destruct Hsame as (Hc & Hd & Hu).
  set (w1 := realtime_cleanup w) in *.
  unfold realtime_effect, session_ok.
  destruct (user (state w1)) as [u|] eqn:Eu.
  - destruct (negb (truthy_str (User.id u))
              || negb (truthy (channelId w1)) && negb (truthy (dmId w1)))
      eqn:Eg.
    + simpl. rewrite Hnone. split; [reflexivity|discriminate].
    + simpl. split; [reflexivity|].
      intros room Hr. inversion Hr. subst room. exists u.
      apply orb_false_iff in Eg as [Eid Eroom].
      apply negb_false_iff in Eid.
      repeat split; auto.
      destruct (truthy (channelId w1)), (truthy (dmId w1));
        simpl in *; congruence.
  - simpl. rewrite Hnone. split; [reflexivity|discriminate].
Qed.

Lemma step_session_ok (w : World) (e : Event) :
  session_ok w -> session_ok (step w e).
Proof.
  intros Hok.
  pose proof (step_session w e) as Hf.
  destruct e; try (now apply (session_ok_fields w _ Hf)); clear Hf.
  - (* the user changes *)
    simpl. destruct (deps_eqb _ _) eqn:Ed.
    + destruct Hok as [Hce Hroom]. split; [exact Hce|].
      intros room Hr. simpl in Hr.
      destruct (Hroom room Hr) as (x & Hx & Hid & Hsel & ->).
      destruct (deps_eqb_users _ _ Ed) as [[Hn _]|(a & b & Ha & -> & Hab)];
        [congruence|].
      exists b. simpl. rewrite Hx in Ha. inversion Ha. subst a.
      rewrite <- Hab. auto.
    + apply effect_rerun_ok. apply Hok.
  - (* the room changes *)
    simpl. destruct (optstr_eqb _ _ && optstr_eqb _ _); [exact Hok|].
    apply (session_ok_fields
             (realtime_effect (set_props channelId0 dmId0
                                 (realtime_cleanup w)))).
    { reflexivity. }
    destruct Hok as [Hce _].
    assert (H : set_props channelId0 dmId0 (realtime_cleanup w)
                = realtime_cleanup (set_props channelId0 dmId0 w)).
    { unfold realtime_cleanup. simpl. destruct (effectChannel w); reflexivity. }
    rewrite H. apply effect_rerun_ok. exact Hce.
Qed.

(** X10 - The component only ever talks to the selected room.  After any
    sequence of events from mounting on, the channel held in [channelRef]
    is the room of the current selection and the current user, who is
    signed in; so a send can only publish to that room. *)
Theorem channel_is_selected_room (c d : optstr) (now : Z)
  (events : list Event) (room : jsstring) :
  let w := run (mount c d now) events in
  channelRef w = Some room ->
  (exists u,
     user (state w) = Some u
     /\ truthy_str (User.id u) = true
     /\ room = roomId (channelId w) (User.id u) (dmId w))
  /\ (transport (step w Send) = transport w
      \/ exists u content staged t,
           transport (step w Send)
           = transport w
             ++ [Publish (roomId (channelId w) (User.id u) (dmId w))
                         (lit "chat") (ChatData content staged t)
                         (User.id u) (metadataOf u)]).
Proof.
  intros w Hr.
  assert (Hok : session_ok w).
  { apply run_invariant; [exact step_session_ok|].
    split; [reflexivity|discriminate]. }
  destruct Hok as [_ Hroom].
  destruct (Hroom room Hr) as (u & Hu & Hid & _ & Heq).
  split; [eauto|].
  simpl. unfold handleSendMessage. rewrite Hu, Hr, Hid. simpl.
  destruct (negb (truthy_str (trim (message (state w))))
            && Nat.eqb (List.length (attachments (state w))) 0).
  - left. reflexivity.
  - right. simpl. rewrite Heq. eauto 6.
Qed.

Lemma channel_is_selected_room_witness :
  let w := run (mount (Some (lit "general")) (Some []) 0)
               [AuthStateChanged (Some Sample.alice) false;
                Settle 0 Resolved;
                SelectRoom (Some []) (Some (lit "u-bob"))] in
  channelRef w = Some (lit "dm-u-alice-u-bob")
  /\ exists u,
       user (state w) = Some u
       /\ truthy_str (User.id u) = true
       /\ lit "dm-u-alice-u-bob"
          = roomId (channelId w) (User.id u) (dmId w).
Proof.
  intros w. split; [reflexivity|].
  exact (proj1 (channel_is_selected_room (Some (lit "general")) (Some []) 0
                  [AuthStateChanged (Some Sample.alice) false;
                   Settle 0 Resolved;
                   SelectRoom (Some []) (Some (lit "u-bob"))]
                  (lit "dm-u-alice-u-bob") eq_refl)).
Defined.

(** *** The typing list never shows a name twice *)

Lemma includes_absent (l : list jsstring) (x : jsstring) :
  includes l x = false -> ~ In x l.
Proof.
  unfold includes. induction l as [|a l IH]; simpl; [tauto|].
  intros H. apply orb_false_iff in H as [Ha Hl].
  intros [E|Hin]; [|now apply IH].
  subst. now rewrite str_eqb_refl in Ha.
Qed.

Lemma onMessage_typingUsers_NoDup (u : User.t) (m : RealtimeMessage.t)
  (w : World) :
  NoDup (typingUsers (state w)) ->
  NoDup (typingUsers (state (onMessage u m w))).
Proof.
  intros Hnd. unfold onMessage.
  destruct (str_eqb (RealtimeMessage.type m) (lit "chat")); [exact Hnd|].
  destruct (str_eqb (RealtimeMessage.type m) (lit "typing")); [|exact Hnd].
  destruct (negb (str_eqb (RealtimeMessage.userId m) (User.id u)));
    [|exact Hnd].
  destruct (Data.isTyping (RealtimeMessage.data m)); simpl.
  - destruct (includes (typingUsers (state w)) _) eqn:Ei; [exact Hnd|].
    apply NoDup_app; [exact Hnd|repeat constructor; simpl; tauto|].
    intros x Hx [<-|[]]. exact (includes_absent _ _ Ei Hx).
  - now apply NoDup_filter.
Qed.

Lemma run_timers_typingUsers_NoDup (t : Z) (n : nat) :
  forall w, NoDup (typingUsers (state w)) ->
            NoDup (typingUsers (state (run_timers n t w))).
Proof.
  induction n as [|n IH]; intros w Hnd; simpl; [exact Hnd|].
  destruct (pop_due t (timers w)) as [[tm rest]|]; [|exact Hnd].
  apply IH. unfold fire, run_callback.
  destruct (callback tm); simpl.
  - match goal with
    | |- context [sendTypingIndicator ?u ?b ?x] =>
        destruct (sendTypingIndicator_cases u b x) as [->|[c ->]]
    end; exact Hnd.
  - now apply NoDup_filter.
Qed.

Lemma resume_typingUsers (p : Pending) (o : Outcome) (w w' : World) :
  resume p o w = Some w' ->
  typingUsers (state w') = typingUsers (state w).
Proof.
  destruct p, o; simpl; intros H; inversion H; subst; clear H;
    unfold setupRealtime_subscribed, setupRealtime_loaded,
      handleSendMessage_settled, handleFileUpload_settled,
      sendTypingIndicator, upload_next;
    split_matches.
Qed.

Lemma step_typingUsers_NoDup (w : World) (e : Event) :
  NoDup (typingUsers (state w)) -> NoDup (typingUsers (state (step w e))).
Proof.
  intros Hnd. destruct e; simpl.
  - destruct (deps_eqb _ _); [exact Hnd|].
    unfold realtime_effect, realtime_cleanup, setupRealtime.
    split_matches; exact Hnd.
  - destruct (optstr_eqb _ _ && optstr_eqb _ _); [exact Hnd|].
    simpl. constructor.
  - destruct (nth_error (pending w) k) as [p|]; [|exact Hnd].
    destruct (resume p o _) as [w'|] eqn:E; [|exact Hnd].
    now rewrite (resume_typingUsers _ _ _ _ E).
  - destruct (existsb _ _); [|exact Hnd].
    now apply onMessage_typingUsers_NoDup.
  - unfold handleMessageChange, sendTypingIndicator.
    split_matches; exact Hnd.
  - unfold handleSendMessage. split_matches; exact Hnd.
  - unfold handleFileUpload, upload_next. split_matches; exact Hnd.
  - exact Hnd.
  - now apply run_timers_typingUsers_NoDup.
Qed.

(** X11 - No name is displayed twice.  After any sequence of events from
    mounting on - deliveries from any participant, timers, room changes -
    the typing list holds every name at most once. *)
Theorem typing_list_has_no_duplicates (c d : optstr) (now : Z)
  (events : list Event) :
  NoDup (typingUsers (state (run (mount c d now) events))).
Proof.
  apply run_invariant; [exact step_typingUsers_NoDup|].
  simpl. constructor.
Qed.

(** *** At most one stop timer *)

Lemma resume_timers (p : Pending) (o : Outcome) (w w' : World) :
  resume p o w = Some w' -> timer_fields w' = timer_fields w.
Proof.
  destruct p, o; simpl; intros H; inversion H; subst; clear H;
    unfold setupRealtime_subscribed, setupRealtime_loaded,
      handleSendMessage_settled, handleFileUpload_settled,
      sendTypingIndicator, upload_next;
    split_matches.
Qed.

Lemma stop_timer_ok_fields (w w' : World) :
  timer_fields w' = timer_fields w -> stop_timer_ok w -> stop_timer_ok w'.
Proof.
  unfold timer_fields, stop_timer_ok. intros H.
  inversion H as [[H1 H2]]. now rewrite H1, H2.
Qed.

Lemma handleMessageChange_stop_timer (v : jsstring) (w : World) :
  stop_timer_ok w -> stop_timer_ok (handleMessageChange v w).
Proof.
  intros [[Hr Hf]|(s & Hr & Hf)]; right;
    exists {| tid := nextTimer w; due := (clock w + 1000)%Z;
              callback := TypingStop (user (state w)) |};
    unfold handleMessageChange; simpl; rewrite Hr; simpl.
  - rewrite andb_true_r.
    destruct (truthy_str (trim v));
      [destruct (sendTypingIndicator_cases (user (state w)) true
                   (setMessage v w)) as [->|[c ->]]|];
      simpl; rewrite Hr; simpl;
      (split; [reflexivity|rewrite filter_app, Hf; reflexivity]).
  - rewrite andb_false_r. simpl. rewrite Hr. simpl.
    split; [reflexivity|].
    rewrite filter_app, (filter_is_stop_clear (tid s) (timers w) s Hf eq_refl).
    reflexivity.
Qed.

Lemma run_timers_stop_timer (t : Z) (n : nat) :
  forall w, stop_timer_ok w -> stop_timer_ok (run_timers n t w).
Proof.
  induction n as [|n IH]; intros w Hok; simpl; [exact Hok|].
  destruct (pop_due t (timers w)) as [[tm rest]|] eqn:E; [|exact Hok].
  apply IH.
  destruct (pop_due_split _ _ _ _ E) as (_ & l1 & l2 & Hts & Hrest).
  destruct (is_stop tm) eqn:Es.
  - (* the stop timer fires: the ref is cleared, none is left *)
    left. split.
    + unfold fire, run_callback. unfold is_stop in Es.
      destruct (callback tm); [reflexivity|discriminate].
    + rewrite fire_timers.
      destruct Hok as [[_ Hf]|(s & _ & Hf)]; rewrite Hts in Hf.
      * rewrite filter_app in Hf. simpl in Hf. rewrite Es in Hf.
        destruct (filter is_stop l1); discriminate.
      * rewrite Hrest.
        exact (proj2 (filter_singleton_split l1 l2 s tm Hf Es)).
  - (* an expiry fires *)
    destruct (fire_quiet tm rest w Es) as (_ & Hr & _).
    apply (stop_timer_ok_fields w); [|exact Hok].
    unfold timer_fields. rewrite Hr, fire_timers, Hts, Hrest.
    now rewrite (filter_is_stop_remove l1 l2 tm Es).
Qed.

Lemma step_stop_timer (w : World) (e : Event) :
  stop_timer_ok w -> stop_timer_ok (step w e).
Proof.
  intros Hok. destruct e; simpl.
  - apply (stop_timer_ok_fields w); [|exact Hok].
    destruct (deps_eqb _ _); [reflexivity|].
    unfold realtime_effect, realtime_cleanup, setupRealtime. split_matches.
  - apply (stop_timer_ok_fields w); [|exact Hok].
    destruct (optstr_eqb _ _ && optstr_eqb _ _); [reflexivity|].
    unfold clear_effect, realtime_effect, realtime_cleanup, setupRealtime.
    split_matches.
  - destruct (nth_error (pending w) k) as [p|]; [|exact Hok].
    destruct (resume p o _) as [w'|] eqn:E; [|exact Hok].
    apply (stop_timer_ok_fields w); [|exact Hok].
    now rewrite (resume_timers _ _ _ _ E).
  - apply (stop_timer_ok_fields w); [|exact Hok].
    destruct (existsb _ _); [|reflexivity].
    unfold onMessage, timer_fields. split_matches.
    rewrite filter_app. simpl. now rewrite app_nil_r.
  - now apply handleMessageChange_stop_timer.
  - apply (stop_timer_ok_fields w); [|exact Hok].
    unfold handleSendMessage. split_matches.
  - apply (stop_timer_ok_fields w); [|exact Hok].
    unfold handleFileUpload, upload_next. split_matches.
  - exact Hok.
  - apply (stop_timer_ok_fields (run_timers (List.length (timers w)) t w));
      [reflexivity|].
    now apply run_timers_stop_timer.
Qed.

(** X12 - A single stop timer.  After any sequence of events from
    mounting on, at most one stop timer of the typing debouncer is
    pending, and [typingTimeoutRef] is [null] exactly when none is;
    otherwise it holds the handle of that timer. *)
Theorem single_stop_timer (c d : optstr) (now : Z) (events : list Event) :
  let w := run (mount c d now) events in
  List.length (filter is_stop (timers w)) <= 1
  /\ (typingTimeoutRef w = None <-> filter is_stop (timers w) = [])
  /\ forall h, typingTimeoutRef w = Some h ->
               exists s, filter is_stop (timers w) = [s] /\ tid s = h.
Proof.
  intros w.
  assert (Hok : stop_timer_ok w).
  { apply run_invariant; [exact step_stop_timer|].
    left. split; reflexivity. }
  destruct Hok as [[Hr Hf]|(s & Hr & Hf)]; rewrite Hr, Hf; simpl.
  - repeat split; auto. discriminate.
  - split; [lia|]. split; [split; discriminate|].
    intros h H. inversion H. eauto.
Qed.

(** ** Changing room and signing out *)

(** X13 - Tear-down on a room change.  When the parent selects another
    room, the transcript, the attachment stage and the typing list are
    emptied, while the text typed into the composer stays; the channel of
    the previous room is unsubscribed, and a channel for the new room is
    subscribed exactly when a user is signed in and the new selection
    names a room. *)
Theorem room_switch_teardown (w : World) (c d : optstr) :
  optstr_eqb c (channelId w) && optstr_eqb d (dmId w) = false ->
  channelRef w = effectChannel w ->
  let w' := step w (SelectRoom c d) in
  let opens :=
    match user (state w) with
    | Some u =>
        if truthy_str (User.id u) && (truthy c || truthy d)
        then Some (u, roomId c (User.id u) d) else None
    | None => None
    end in
  messages (state w') = []
  /\ attachments (state w') = []
  /\ typingUsers (state w') = []
  /\ message (state w') = message (state w)
  /\ channelId w' = c /\ dmId w' = d
  /\ channelRef w' = option_map snd opens
  /\ transport w'
     = transport w
       ++ match effectChannel w with
          | Some old => [Unsubscribe old]
          | None => []
          end
       ++ match opens with
          | Some (u, room) => [Subscribe room (User.id u) (metadataOf u)]
          | None => []
          end.
Proof.
  intros Hne Hce. simpl. rewrite Hne.
  unfold clear_effect, realtime_effect, realtime_cleanup, setupRealtime.
  destruct (effectChannel w) as [old|] eqn:Ee; simpl;
    destruct (user (state w)) as [u|]; simpl;
    try (destruct (truthy_str (User.id u)); simpl);
    try (destruct (truthy c); simpl);
    try (destruct (truthy d); simpl);
    rewrite ?app_nil_r, <- ?app_assoc; simpl; repeat split; auto.
Qed.

Lemma room_switch_teardown_witness :
  let w := onMessage Sample.alice (Sample.from_bob "m1" "chat" "hi" false 5)
                     Sample.typed_hello in
  List.length (messages (state w)) = 1
  /\ messages (state (step w (SelectRoom (Some (lit "random")) (Some []))))
     = []
  /\ message (state (step w (SelectRoom (Some (lit "random")) (Some []))))
     = lit "hello"
  /\ channelRef (step w (SelectRoom (Some (lit "random")) (Some [])))
     = Some (lit "channel-random").
Proof.
  intros w. split; [reflexivity|].
  destruct (room_switch_teardown w (Some (lit "random")) (Some [])
              eq_refl eq_refl) as (Hm & _ & _ & Hd & _ & _ & Hc & _).
  split; [exact Hm|]. split; [exact Hd|exact Hc].
Defined.

(** X14 - Sign-out.  When the auth state changes to "no user" while a
    user was signed in, the open channel is unsubscribed and the ref is
    cleared, no new subscription is made, and afterwards a send does
    nothing and typing publishes nothing. *)
Theorem sign_out_closes_channel (w : World) (u : User.t) (isLoading : bool) :
  user (state w) = Some u ->
  channelRef w = effectChannel w ->
  let w' := step w (AuthStateChanged None isLoading) in
  user (state w') = None
  /\ channelRef w' = None
  /\ pending w' = pending w
  /\ transport w'
     = transport w ++ match effectChannel w with
                      | Some old => [Unsubscribe old]
                      | None => []
                      end
  /\ step w' Send = w'
  /\ forall value, transport (step w' (Change value)) = transport w'.
Proof.
  intros Hu Hce. simpl. rewrite Hu. simpl.
  unfold realtime_effect, realtime_cleanup, handleSendMessage,
    handleMessageChange, sendTypingIndicator.
  simpl.
  destruct (effectChannel w) as [old|] eqn:Ee; simpl;
    rewrite ?Hce, ?app_nil_r; repeat split;
    intros value;
    destruct (truthy_str (trim value) && negb (armed (typingTimeoutRef w)));
    simpl; destruct (typingTimeoutRef w); reflexivity.
Qed.

Lemma sign_out_closes_channel_witness :
  user (state Sample.typed_hello) = Some Sample.alice
  /\ channelRef (step Sample.typed_hello (AuthStateChanged None false)) = None
  /\ step (step Sample.typed_hello (AuthStateChanged None false)) Send
     = step Sample.typed_hello (AuthStateChanged None false).
Proof.
  split; [reflexivity|].
  destruct (sign_out_closes_channel Sample.typed_hello Sample.alice false
              eq_refl eq_refl) as (_ & Hc & _ & _ & Hs & _).
  split; [exact Hc|exact Hs].
Defined.

(** ** Typing indicators: a second start does not extend the display *)

(** A timer that is not yet due stays pending while time passes. *)
Lemma run_timers_keeps_later (t : Z) (tm : Timer) (n : nat) :
  forall w, In tm (timers w) -> (t < due tm)%Z ->
            In tm (timers (run_timers n t w)).
Proof.
  induction n as [|n IH]; intros w Hin Hd; simpl; [exact Hin|].
  destruct (pop_due t (timers w)) as [[tm' rest]|] eqn:E; [|exact Hin].
  apply IH; [|exact Hd]. rewrite fire_timers.
  destruct (pop_due_split _ _ _ _ E) as (Hd' & l1 & l2 & Hts & ->).
  rewrite Hts in Hin. apply in_app_or in Hin as [Hin|[<-|Hin]];
    [apply in_or_app; auto|lia|apply in_or_app; auto].
Qed.

(** What a [typing] start of another participant does. *)
Lemma onMessage_typing_start (u : User.t) (m : RealtimeMessage.t)
  (w : World) :
  RealtimeMessage.type m = lit "typing" ->
  RealtimeMessage.userId m <> User.id u ->
  Data.isTyping (RealtimeMessage.data m) = true ->
  timers (onMessage u m w)
  = timers w
    ++ [{| tid := nextTimer w; due := (clock w + 3000)%Z;
           callback :=
             TypingExpire
               (or_str (meta_displayName (RealtimeMessage.metadata m))
                       (lit "Someone")) |}]
  /\ includes (typingUsers (state (onMessage u m w)))
               (or_str (meta_displayName (RealtimeMessage.metadata m))
                       (lit "Someone")) = true.
Proof.
  intros Hty Hid Hit. apply str_eqb_neq in Hid.
  unfold onMessage. rewrite Hty, Hid, Hit. simpl. split; [reflexivity|].
  destruct (includes (typingUsers (state w)) _) eqn:Ei;
    [exact Ei|apply includes_app_self].
Qed.

(** X15 - The expiry is counted from the first start.  When a participant's
    [typing] start is followed, less than 3000 ms later, by another start
    of the same name, the name is nevertheless gone from the typing list
    3000 ms after the first start: the second start does not extend the
    display. *)
Theorem typing_expiry_not_extended (u : User.t) (m m' : RealtimeMessage.t)
  (w : World) (t1 T : Z) :
  RealtimeMessage.type m = lit "typing" ->
  RealtimeMessage.type m' = lit "typing" ->
  RealtimeMessage.userId m <> User.id u ->
  RealtimeMessage.userId m' <> User.id u ->
  Data.isTyping (RealtimeMessage.data m) = true ->
  Data.isTyping (RealtimeMessage.data m') = true ->
  meta_displayName (RealtimeMessage.metadata m')
  = meta_displayName (RealtimeMessage.metadata m) ->
  (t1 < clock w + 3000)%Z ->
  (clock w + 3000 <= T)%Z ->
  let userName :=
    or_str (meta_displayName (RealtimeMessage.metadata m))
           (lit "Someone") in
  let w2 := onMessage u m' (advance_to t1 (onMessage u m w)) in
  includes (typingUsers (state w2)) userName = true
  /\ includes (typingUsers (state (advance_to T w2))) userName = false.
Proof.
  intros Hty Hty' Hid Hid' Hit Hit' Hname Ht1 HT userName w2.
  destruct (onMessage_typing_start u m w Hty Hid Hit) as [Htm _].
  fold userName in Htm.
  set (tm := {| tid := nextTimer w; due := (clock w + 3000)%Z;
                callback := TypingExpire userName |}) in *.
  remember (advance_to t1 (onMessage u m w)) as w1 eqn:Ew1.
  assert (Hin1 : In tm (timers w1)).
  { rewrite Ew1. unfold advance_to. simpl.
    apply run_timers_keeps_later; [|simpl; lia].
    rewrite Htm. apply in_or_app. right. left. reflexivity. }
  clear Ew1.
  destruct (onMessage_typing_start u m' w1 Hty' Hid' Hit') as [Htm2 Hinc].
  rewrite Hname in Hinc. fold userName in Hinc. fold w2 in Htm2, Hinc.
  assert (Hin2 : In tm (timers w2)).
  { rewrite Htm2. apply in_or_app. now left. }
  clearbody w2.
  split; [exact Hinc|].
  unfold advance_to. simpl.
  pose proof (run_timers_exhausts T (List.length (timers w2)) w2 (le_n _))
    as Hnone.
  destruct (expiry_preserved T userName (List.length (timers w2)) w2)
    as [(x & Hin & Hdue & _)|Habs];
    [|pose proof (pop_due_none _ _ Hnone x Hin); lia|exact Habs].
  left. exists tm. repeat split; auto.
Qed.

Lemma typing_expiry_not_extended_witness :
  let m := Sample.from_bob "t1" "typing" "" true 0 in
  let m' := Sample.from_bob "t2" "typing" "" true 2000 in
  let w2 := onMessage Sample.alice m'
              (advance_to 2000 (onMessage Sample.alice m Sample.live)) in
  RealtimeMessage.userId m <> User.id Sample.alice
  /\ includes (typingUsers (state (advance_to 3000 w2))) (lit "Bob") = false.
Proof.
  intros m m' w2.
  assert (Hne : RealtimeMessage.userId m <> User.id Sample.alice)
    by (vm_compute; discriminate).
  split; [exact Hne|].
  apply (typing_expiry_not_extended Sample.alice m m' Sample.live 2000 3000
           eq_refl eq_refl Hne Hne eq_refl eq_refl eq_refl);
    vm_compute; congruence.
Defined.

(** ** A pending stop signal across a room change *)

(** X16 - A pending stop signal follows the user into the new room.  When
    the room is changed while the stop timer of a typing burst is
    pending, the timer stays armed; when it fires, [typing:stop] is
    published on the channel of the new room - the room where the typing
    started gets no stop signal. *)
Theorem stop_signal_after_room_switch (w : World) (u : User.t)
  (room : jsstring) (t : Z) (X : list TransportCall) (c d : optstr)
  (T : Z) :
  burst_inv u room t X w ->
  effectChannel w = Some room ->
  truthy_str (User.id u) = true ->
  optstr_eqb c (channelId w) && optstr_eqb d (dmId w) = false ->
  truthy c || truthy d = true ->
  (t + 1000 <= T)%Z ->
  transport (run w (switch_then_wait c d T))
  = X ++ [Unsubscribe room;
          Subscribe (roomId c (User.id u) d) (User.id u) (metadataOf u);
          typing_signal (roomId c (User.id u) d) u false (t + 1000)].
Proof.
  intros (Hk & Hu & Hch & Ht & h & Hr & Hf) He Hid Hne Hsel HT.
  change (run w (switch_then_wait c d T))
    with (advance_to T (step w (SelectRoom c d))).
  remember (step w (SelectRoom c d)) as w1 eqn:Ew1.
  assert (H1 : transport w1
               = X ++ [Unsubscribe room;
                       Subscribe (roomId c (User.id u) d) (User.id u)
                                 (metadataOf u)]
               /\ channelRef w1 = Some (roomId c (User.id u) d)
               /\ timers w1 = timers w
               /\ clock w1 = clock w).
  { rewrite Ew1. simpl. rewrite Hne.
    unfold clear_effect, realtime_effect, realtime_cleanup, setupRealtime.
    simpl. rewrite He. simpl. rewrite Hu, Hid. simpl.
    destruct (truthy c); simpl.
    - rewrite Ht, <- app_assoc. repeat split.
    - simpl in Hsel. rewrite Hsel. simpl.
      rewrite Ht, <- app_assoc. repeat split. }
  clear Ew1. destruct H1 as (Ht1 & Hc1 & Htm1 & Hk1).
  unfold advance_to. simpl.
  rewrite (stop_fires u (roomId c (User.id u) d) T
             {| tid := h; due := (t + 1000)%Z;
                callback := TypingStop (Some u) |}
             (List.length (timers w1)) w1); auto.
  - rewrite Ht1, <- app_assoc. reflexivity.
  - now rewrite Htm1.
  - simpl. rewrite Hk1. lia.
Qed.

Lemma stop_signal_after_room_switch_witness :
  burst_inv Sample.alice (lit "channel-general") 0
            (transport Sample.live
             ++ [typing_signal (lit "channel-general") Sample.alice true 0])
            Sample.typed_hello
  /\ transport (run Sample.typed_hello
                    (switch_then_wait (Some (lit "random")) (Some []) 1500))
     = (transport Sample.live
        ++ [typing_signal (lit "channel-general") Sample.alice true 0])
       ++ [Unsubscribe (lit "channel-general");
           Subscribe (lit "channel-random") (User.id Sample.alice)
                     (metadataOf Sample.alice);
           typing_signal (lit "channel-random") Sample.alice false 1000].
Proof.
  assert (H : burst_inv Sample.alice (lit "channel-general") 0
                (transport Sample.live
                 ++ [typing_signal (lit "channel-general") Sample.alice
                                   true 0])
                Sample.typed_hello).
  { repeat split. exists 1. split; reflexivity. }
  split; [exact H|].
  apply (stop_signal_after_room_switch Sample.typed_hello Sample.alice
           (lit "channel-general") 0 _ (Some (lit "random")) (Some []) 1500
           H eq_refl eq_refl eq_refl eq_refl).
  vm_compute. discriminate.
Defined.

(** ** The sidebar *)

Lemma str_includes_empty (s : jsstring) : str_includes s [] = true.
Proof. destruct s; reflexivity. Qed.

Lemma starts_with_refl (s : jsstring) : starts_with s s = true.
Proof.
  induction s as [|c s IH]; simpl; auto. now rewrite N.eqb_refl.
Qed.

Lemma str_includes_refl (s : jsstring) : str_includes s s = true.
Proof. destruct s; simpl; auto. now rewrite N.eqb_refl, starts_with_refl. Qed.

Lemma filter_all {A} (p : A -> bool) (l : list A) :
  (forall x, In x l -> p x = true) -> filter p l = l.
Proof.
  induction l as [|a l IH]; simpl; intros H; auto.
  rewrite (H a) by auto. f_equal. apply IH. auto.
Qed.

(** X17 - Sidebar search.  With an empty search box every channel and
    every direct message is listed; searching for the exact name of an
    entry lists that entry; and whatever the query, the entries listed
    are entries of the sidebar whose lower-cased name contains the
    lower-cased query.  This holds for any lower-casing that maps the
    empty string to itself. *)
Theorem sidebar_search (toLowerCase : jsstring -> jsstring) :
  toLowerCase [] = [] ->
  Sidebar.filteredChannels toLowerCase [] = Sidebar.channels
  /\ Sidebar.filteredDMs toLowerCase [] = Sidebar.directMessages
  /\ (forall channel,
        In channel Sidebar.channels ->
        In channel (Sidebar.filteredChannels toLowerCase
                      (SidebarChannel.name channel)))
  /\ (forall dm,
        In dm Sidebar.directMessages ->
        In dm (Sidebar.filteredDMs toLowerCase (SidebarDM.name dm)))
  /\ (forall query channel,
        In channel (Sidebar.filteredChannels toLowerCase query) ->
        In channel Sidebar.channels
        /\ str_includes (toLowerCase (SidebarChannel.name channel))
                        (toLowerCase query) = true).
Proof.
  intros Hempty. unfold Sidebar.filteredChannels, Sidebar.filteredDMs.
  repeat split.
  - apply filter_all. intros x _. rewrite Hempty. apply str_includes_empty.
  - apply filter_all. intros x _. rewrite Hempty. apply str_includes_empty.
  - intros channel Hin. apply filter_In. split; [exact Hin|].
    apply str_includes_refl.
  - intros dm Hin. apply filter_In. split; [exact Hin|].
    apply str_includes_refl.
  - apply filter_In in H. apply H.
  - apply filter_In in H. apply H.
Qed.

Lemma sidebar_search_witness :
  Sidebar.ascii_toLowerCase [] = []
  /\ Sidebar.filteredChannels Sidebar.ascii_toLowerCase [] = Sidebar.channels.
Proof.
  split; [reflexivity|].
  exact (proj1 (sidebar_search Sidebar.ascii_toLowerCase eq_refl)).
Defined.

Example sidebar_search_dev :
  map SidebarChannel.id
      (Sidebar.filteredChannels Sidebar.ascii_toLowerCase (lit "DE"))
  = [lit "development"; lit "design"].
Proof. reflexivity. Qed.

(** ** The application shell *)

(** X18 - Channel and direct message are mutually exclusive.  From the
    initial selection on, after any sequence of clicks on sidebar entries
    with non-empty ids, exactly one of the selected channel and the
    selected direct message is non-empty; so [ChatArea] always receives a
    room, and the kind of room is that of the last click. *)
Theorem selection_is_exclusive (clicks : list App.Selection) :
  Forall (fun sel => App.selected_id sel <> []) clicks ->
  let s := fold_left App.select clicks App.init in
  xorb (truthy_str (App.selectedChannel s)) (truthy_str (App.selectedDM s))
  = true
  /\ truthy (fst (App.chatAreaProps s)) || truthy (snd (App.chatAreaProps s))
     = true
  /\ forall before last,
       clicks = before ++ [last] ->
       match last with
       | App.ChannelClicked i =>
           App.selectedChannel s = i /\ App.selectedDM s = []
       | App.DMClicked i =>
           App.selectedDM s = i /\ App.selectedChannel s = []
       end.
Proof.
  intros Hall.
  assert (Hinv : forall cs s0,
            Forall (fun sel => App.selected_id sel <> []) cs ->
            xorb (truthy_str (App.selectedChannel s0))
                 (truthy_str (App.selectedDM s0)) = true ->
            xorb (truthy_str (App.selectedChannel (fold_left App.select cs s0)))
                 (truthy_str (App.selectedDM (fold_left App.select cs s0)))
            = true).
  { induction cs as [|sel cs IH]; intros s0 Hf H0; simpl; [exact H0|].
    inversion Hf as [|? ? Hsel Hrest]; subst.
    apply IH; [exact Hrest|].
    destruct sel as [i|i]; simpl in *; destruct i; simpl; auto;
      contradiction. }
  specialize (Hinv clicks App.init Hall eq_refl).
  cbv zeta. split; [exact Hinv|]. split.
  - unfold App.chatAreaProps. simpl.
    destruct (App.selectedChannel _), (App.selectedDM _); simpl in *;
      auto; discriminate.
  - intros before last ->. rewrite fold_left_app. simpl.
    destruct last; simpl; auto.
Qed.

Lemma selection_is_exclusive_witness :
  let clicks := [App.DMClicked (lit "sarah");
                 App.ChannelClicked (lit "random");
                 App.DMClicked (lit "mike")] in
  Forall (fun sel => App.selected_id sel <> []) clicks
  /\ xorb (truthy_str (App.selectedChannel
                         (fold_left App.select clicks App.init)))
          (truthy_str (App.selectedDM
                         (fold_left App.select clicks App.init)))
     = true.
Proof.
  intros clicks.
  assert (H : Forall (fun sel => App.selected_id sel <> []) clicks)
    by (repeat constructor; discriminate).
  split; [exact H|].
  exact (proj1 (selection_is_exclusive clicks H)).
Defined.

(** ** The message notification *)

Ltac notif_step :=
  unfold Notification.fires_before;
  cbn -[Z.add Z.leb Z.ltb Z.eqb Z.max Z.mul];
  repeat match goal with
         | |- context [Z.max ?a ?b] =>
             first [rewrite (Z.max_r a b) by lia
                   |rewrite (Z.max_l a b) by lia]
         | |- context [(?a <=? ?b)%Z] =>
             first [rewrite (proj2 (Z.leb_le a b)) by lia
                   |rewrite (proj2 (Z.leb_gt a b)) by lia]
         | |- context [(?a <? ?b)%Z] =>
             first [rewrite (proj2 (Z.ltb_lt a b)) by lia
                   |rewrite (proj2 (Z.ltb_ge a b)) by lia]
         | |- context [(?a =? ?b)%Z] =>
             first [rewrite (proj2 (Z.eqb_eq a b)) by lia
                   |rewrite (proj2 (Z.eqb_neq a b)) by lia]
         end;
  cbn -[Z.add Z.leb Z.ltb Z.eqb Z.max Z.mul].

Ltac notif := repeat (progress notif_step).

(** Evaluates the innermost step of a run of the notification whose
    comparisons the hypotheses decide, and puts its result in place. *)
Ltac phase :=
  match goal with
  | |- context [Notification.advance_to ?T ?n] =>
      lazymatch n with
      | context [Notification.advance_to] => fail
      | context [Notification.unmount] => fail
      | context [Notification.handleClose] => fail
      | _ => idtac
      end;
      let E := fresh "E" in
      eassert (E : Notification.advance_to T n = _);
      [unfold Notification.advance_to, Notification.mount; notif;
       reflexivity
      |rewrite E; clear E]
  | |- context [Notification.unmount ?n] =>
      lazymatch n with
      | context [Notification.advance_to] => fail
      | context [Notification.unmount] => fail
      | context [Notification.handleClose] => fail
      | _ => idtac
      end;
      let E := fresh "E" in
      eassert (E : Notification.unmount n = _);
      [unfold Notification.unmount, Notification.mount; notif; reflexivity
      |rewrite E; clear E]
  | |- context [Notification.handleClose ?n] =>
      lazymatch n with
      | context [Notification.advance_to] => fail
      | context [Notification.unmount] => fail
      | context [Notification.handleClose] => fail
      | _ => idtac
      end;
      let E := fresh "E" in
      eassert (E : Notification.handleClose n = _);
      [unfold Notification.handleClose, Notification.mount; notif;
       reflexivity
      |rewrite E; clear E]
  end.

Ltac notif_run :=
  unfold Notification.run;
  cbn [fold_left Notification.step];
  repeat phase;
  cbn [Notification.closed Notification.isVisible Notification.timers];
  repeat split;
  repeat match goal with
         | |- (_ :: _) = (_ :: _) => apply f_equal2
         end;
  try reflexivity; try lia.

(** X19 - The life of an untouched notification.  Left alone, a
    notification mounted at [now] is hidden before [now + 100], shown
    from then until [now + 5000], hidden again afterwards, and the
    parent's [onClose] is called exactly once, at [now + 5300]. *)
Theorem notification_auto_dismiss (now T : Z) :
  let n := Notification.advance_to T (Notification.mount now) in
  ((T < now + 100)%Z ->
     Notification.isVisible n = false /\ Notification.closed n = [])
  /\ ((now + 100 <= T < now + 5000)%Z ->
        Notification.isVisible n = true /\ Notification.closed n = [])
  /\ ((now + 5000 <= T < now + 5300)%Z ->
        Notification.isVisible n = false /\ Notification.closed n = [])
  /\ ((now + 5300 <= T)%Z ->
        Notification.isVisible n = false
        /\ Notification.closed n = [(now + 5300)%Z]
        /\ Notification.timers n = []).
Proof.
  cbv zeta. split; [|split; [|split]]; intros HT; notif_run.
Qed.

(** X20 - Removing a notification.  If the parent removes the
    notification before the auto-dismissal at [now + 5000], [onClose] is
    never called.  If it removes it during the 300 ms that follow the
    dismissal, the call already scheduled is not cancelled: [onClose] is
    still called at [now + 5300], after the removal. *)
Theorem notification_unmount (now t T : Z) :
  ((t < now + 5000)%Z ->
     Notification.closed
       (Notification.run (Notification.mount now)
          [Notification.Tick t; Notification.Unmount; Notification.Tick T])
     = [])
  /\ ((now + 5000 <= t < now + 5300)%Z ->
      (now + 5300 <= T)%Z ->
        Notification.closed
          (Notification.run (Notification.mount now)
             [Notification.Tick t; Notification.Unmount;
              Notification.Tick T])
        = [(now + 5300)%Z]).
Proof.
  split.
  - intros Ht. destruct (Z.lt_ge_cases t (now + 100)); notif_run.
  - intros Ht HT. notif_run.
Qed.

(** X21 - The close button, with a parent that removes the notification
    when [onClose] is called.  A click at [t] makes [onClose] be called
    at [t + 300].  If the click comes more than 300 ms before the
    auto-dismissal this is the only call; if it comes within the last
    300 ms before it, the auto-dismissal fires first and [onClose] is
    called a second time at [now + 5300], after the removal. *)
Theorem notification_close_button (now t T : Z) :
  (now <= t)%Z ->
  let clicked :=
    Notification.run (Notification.mount now)
      [Notification.Tick t; Notification.Click;
       Notification.Tick (t + 300); Notification.Unmount;
       Notification.Tick T] in
  ((t < now + 4700)%Z -> Notification.closed clicked = [(t + 300)%Z])
  /\ ((now + 4700 <= t < now + 5000)%Z ->
      (now + 5300 <= T)%Z ->
      Notification.closed clicked = [(t + 300)%Z; (now + 5300)%Z]).
Proof.
  intros Hnow. cbv zeta. split.
  - intros Ht.
    destruct (Z.lt_ge_cases t (now + 100));
      [destruct (Z.lt_trichotomy (t + 300) (now + 100)) as [?|[?|?]]|];
      notif_run.
  - intros Ht HT.
    destruct (Z.eq_dec t (now + 4700)) as [->|Hne]; notif_run.
Qed.

Lemma notification_close_button_witness :
  (0 <= 4800)%Z
  /\ Notification.closed
       (Notification.run (Notification.mount 0)
          [Notification.Tick 4800; Notification.Click;
           Notification.Tick (4800 + 300); Notification.Unmount;
           Notification.Tick 6000])
     = [(4800 + 300)%Z; (0 + 5300)%Z].
Proof.
  assert (H : (0 <= 4800)%Z) by lia.
  split; [exact H|].
  apply (proj2 (notification_close_button 0 4800 6000 H)); lia.
Defined.

(** ** Backlog and live stream *)

Lemma onMessage_pending (u : User.t) (m : RealtimeMessage.t) (w : World) :
  pending (onMessage u m w) = pending w.
Proof. unfold onMessage. split_matches. Qed.

(** X22 - The backlog replaces what the live stream delivered before it.
    The [onMessage] callback is registered before the backlog is
    fetched; a message it delivers while the fetch is in flight is in the
    transcript only until the backlog arrives: the backlog becomes the
    whole transcript, so the message is lost unless the backlog has it. *)
Theorem backlog_replaces_live (w : World) (k : nat) (s : Session)
  (u : User.t) (m : RealtimeMessage.t)
  (recentMessages : list RealtimeMessage.t) :
  nth_error (pending w) k = Some (AwaitGetMessages s) ->
  let w' := step (onMessage u m w)
                 (Settle k (ResolvedMessages recentMessages)) in
  messages (state w') = map (toMessage (s_user s)) recentMessages
  /\ (some (fun r => str_eqb (RealtimeMessage.id r) (RealtimeMessage.id m))
           recentMessages = false ->
      count_id (RealtimeMessage.id m) (messages (state w')) = 0).
Proof.
  intros Hk.
  pose proof (onMessage_pending u m w) as Hp.
  assert (Hm : messages
                 (state (step (onMessage u m w)
                              (Settle k (ResolvedMessages recentMessages))))
               = map (toMessage (s_user s)) recentMessages).
  { simpl. rewrite Hp, Hk. reflexivity. }
  cbv zeta. split; [exact Hm|].
  intros Habs. rewrite Hm. apply count_id_absent.
  unfold some in *. clear Hm.
  induction recentMessages as [|r rs IH]; simpl in *; [reflexivity|].
  apply orb_false_iff in Habs as [Hr Hrs].
  rewrite Hr. simpl. now apply IH.
Qed.

Lemma backlog_replaces_live_witness :
  let m := Sample.from_bob "m9" "chat" "just sent" false 9 in
  let old := Sample.from_bob "m1" "chat" "earlier" false 1 in
  nth_error (pending Sample.subscribed) 0
  = Some (AwaitGetMessages Sample.general_session)
  /\ map Message.id
       (messages (state (onMessage Sample.alice m Sample.subscribed)))
     = [lit "m9"]
  /\ map Message.id
       (messages
          (state (step (onMessage Sample.alice m Sample.subscribed)
                       (Settle 0 (ResolvedMessages [old])))))
     = [lit "m1"].
Proof.
  intros m old. split; [reflexivity|]. split; [reflexivity|].
  rewrite (proj1 (backlog_replaces_live Sample.subscribed 0
                    Sample.general_session Sample.alice m [old] eq_refl)).
  reflexivity.
Defined.

(** ** Avatar initials *)

Lemma join_empty_sep (l : list optstr) :
  join [] l = List.concat (map join_elt l).
Proof.
  induction l as [|v [|v' rest] IH]; simpl in *; auto.
  - now rewrite app_nil_r.
  - now rewrite IH.
Qed.

Lemma split_on_app (sep : N) (a b : jsstring) :
  split_on sep (a ++ sep :: b) = split_on sep a ++ split_on sep b.
Proof.
  induction a as [|c a IH]; simpl.
  - now rewrite N.eqb_refl.
  - destruct (N.eqb c sep); [now rewrite IH|].
    rewrite IH.
    assert (Hne : split_on sep a <> []).
    { destruct a as [|x a']; simpl; [discriminate|].
      destruct (N.eqb x sep); [discriminate|].
      destruct (split_on sep a'); discriminate. }
    destruct (split_on sep a); [contradiction|reflexivity].
Qed.

Lemma split_on_absent (sep : N) (s : jsstring) :
  forallb (fun c => negb (N.eqb c sep)) s = true -> split_on sep s = [s].
Proof.
  induction s as [|c s IH]; simpl; [reflexivity|].
  intros H. apply andb_true_iff in H as [Hc Hs].
  apply negb_true_iff in Hc. rewrite Hc, (IH Hs). reflexivity.
Qed.

(** X23 - Avatar initials.  The initials of the empty name are empty; the
    initials of a name without a space are its first code unit; and the
    initials of two names joined by a space are the initials of the one
    followed by the initials of the other, so that leading, trailing and
    doubled spaces contribute nothing. *)
Theorem initials_of_words :
  initials [] = []
  /\ (forall c s,
        forallb (fun x => negb (N.eqb x 32)) (c :: s) = true ->
        initials (c :: s) = [c])
  /\ (forall a b, initials (a ++ 32%N :: b) = initials a ++ initials b).
Proof.
  split; [reflexivity|]. split.
  - intros c s H. unfold initials. now rewrite (split_on_absent 32 _ H).
  - intros a b. unfold initials.
    rewrite split_on_app, map_app, !join_empty_sep, map_app, List.concat_app.
    reflexivity.
Qed.

Example initials_examples :
  initials (lit "John Doe") = lit "JD"
  /\ initials (lit " Sarah  Wilson ") = lit "SW".
Proof. split; reflexivity. Qed.
